(** * firefly-tools: the request execution engine of [FireflyApiClient]

    A shallow embedding of [src/client/firefly-client.ts] (rate-limit gate,
    retry loop, error classification, connectivity probe, statistics) and of
    the bulk import loop of [src/tools/category-importer.ts], followed by
    the file steps of the importer, the configuration manager
    ([src/utils/config-manager.ts]), the level test of the logger and the
    template copy of the setup script.

    Asynchronous code runs on one cooperative thread; every [await] is a
    sequencing point, so a method is a state transformer over the client's
    fields and the observable environment (clock, network, console).  A
    thrown value leaves the state as it was at the [throw].  Time is
    counted in milliseconds and passes only while a timer or a [fetch] is
    awaited. *)

From Stdlib Require Import ZArith List String Bool Lia DecimalString.
Import ListNotations.

#[local] Set Warnings "-register-all".

Open Scope string_scope.
Open Scope Z_scope.

(** ** JavaScript values produced by [JSON.parse] *)

Module Js.

(** The values [response.json()] can resolve to.  JSON numbers are kept
    by their integer value. *)
Inductive value : Type :=
| Null
| Bool (b : bool)
| Number (n : Z)
| Str (s : string)
| Array (items : list value)
| Object (fields : list (string * value)).

(** Template-literal rendering of an integer. *)
Definition dec (z : Z) : string := NilZero.string_of_int (Z.to_int z).

Fixpoint join (sep : string) (l : list string) : string :=
  match l with
  | [] => ""
  | [s] => s
  | s :: rest => s ++ sep ++ join sep rest
  end.

(** [String(v)], the conversion the [Error] constructor applies to its
    message argument. *)
Fixpoint toString (v : value) : string :=
  match v with
  | Null => "null"
  | Bool true => "true"
  | Bool false => "false"
  | Number n => dec n
  | Str s => s
  | Array items =>
      join "," (map (fun x => match x with Null => "" | _ => toString x end) items)
  | Object _ => "[object Object]"
  end.

(** Own-property lookup on a parsed object, whose keys are distinct. *)
Fixpoint lookup (key : string) (fields : list (string * value)) : option value :=
  match fields with
  | [] => None
  | (k, v) :: rest => if String.eqb k key then Some v else lookup key rest
  end.

(** Truthiness of the result of a property read; [None] is [undefined]. *)
Definition truthy (v : option value) : bool :=
  match v with
  | None => false
  | Some Null => false
  | Some (Bool b) => b
  | Some (Number n) => negb (n =? 0)
  | Some (Str s) => negb (String.eqb s "")
  | Some (Array _) => true
  | Some (Object _) => true
  end.

End Js.

(** ** Errors *)

(** Values that reach a [catch] clause.  [FireflyApiError] is the class of
    the client; every other thrown value here is an instance of [Error]
    with a [name] and a [message] and no [status]. *)
Inductive JsError : Type :=
| FireflyApiError (message : string) (status : Z) (response : option Js.value)
| PlainError (name : string) (message : string).

(** [error instanceof FireflyApiError] *)
Definition isFireflyApiError (e : JsError) : bool :=
  match e with
  | FireflyApiError _ _ _ => true
  | PlainError _ _ => false
  end.

(** [error.status], absent on plain errors. *)
Definition errorStatus (e : JsError) : option Z :=
  match e with
  | FireflyApiError _ s _ => Some s
  | PlainError _ _ => None
  end.

Definition errorMessage (e : JsError) : string :=
  match e with
  | FireflyApiError m _ _ => m
  | PlainError _ m => m
  end.

(** What [fetch] rejects with when its [AbortSignal.timeout] fires. *)
Definition TimeoutError : JsError :=
  PlainError "TimeoutError" "Signal timed out.".

(** What [fetch] rejects with when no response is obtained. *)
Definition NetworkError (reason : string) : JsError :=
  PlainError "TypeError" reason.

(** What [response.json()] rejects with on a body that is empty or not JSON. *)
Definition JsonSyntaxError : JsError :=
  PlainError "SyntaxError" "Unexpected end of JSON input".

(** Reading a property of [null]. *)
Definition NullPropertyError (prop : string) : JsError :=
  PlainError "TypeError"
    ("Cannot read properties of null (reading '" ++ prop ++ "')").

(** What [AbortSignal.timeout] throws when its argument is out of range. *)
Definition SignalRangeError : JsError :=
  PlainError "TypeError"
    ("Failed to execute 'AbortSignal.timeout': Argument 1 is outside the "
     ++ "accepted range of 0 to 9007199254740991, inclusive").

(** ** Configuration ([AppConfig]) *)

Inductive LogLevel : Type := debug | info | warn | error.

Definition LogLevel_eqb (a b : LogLevel) : bool :=
  match a, b with
  | debug, debug | info, info | warn, warn | error, error => true
  | _, _ => false
  end.

Record FireflyConfig : Type := {
  baseUrl : string;
  apiToken : string;
  timeout : Z;
  retryAttempts : Z;
  retryDelay : Z
}.

Record LoggingConfig : Type := {
  level : LogLevel;
  logToFile : bool;
  logFile : string
}.

Record AppConfig : Type := {
  firefly : FireflyConfig;
  logging : LoggingConfig
}.

(** ** Requests and responses *)

Inductive HttpMethod : Type := GET | POST | PUT | DELETE | PATCH.

Definition methodName (m : HttpMethod) : string :=
  match m with
  | GET => "GET" | POST => "POST" | PUT => "PUT"
  | DELETE => "DELETE" | PATCH => "PATCH"
  end.

Inductive ParamValue : Type := PString (s : string) | PNumber (n : Z).

(** [String(value)] on a query parameter. *)
Definition paramString (p : ParamValue) : string :=
  match p with
  | PString s => s
  | PNumber n => Js.dec n
  end.

Record RequestOptions : Type := {
  opt_method : option HttpMethod;
  opt_body : option Js.value;
  opt_params : option (list (string * ParamValue))
}.

Definition defaultOptions : RequestOptions :=
  {| opt_method := None; opt_body := None; opt_params := None |}.

(** [RequestInit] as [request] builds it.  [signal] is the instant at which
    the [AbortSignal.timeout] created for it fires. *)
Record RequestInit : Type := {
  method : HttpMethod;
  body : option Js.value;
  signal : Z
}.

(** A received HTTP response.  [json] is the result of [response.json()]:
    [None] when the body is absent or not JSON, so that the call rejects. *)
Record Response : Type := {
  status : Z;
  statusText : string;
  json : option Js.value
}.

(** [response.ok] *)
Definition ok (r : Response) : bool := (200 <=? status r) && (status r <=? 299).

(** ** Environment *)

(** What the network does with one [fetch] when nothing aborts it. *)
Inductive NetReply : Type :=
| Responds (latency : Z) (r : Response)
| Fails (latency : Z) (reason : string)
| Hangs.

(** Observable effects, most recent first in [events]: each [fetch] with
    the instant of the call and the instant its signal fires, each awaited
    timer, each call of a [console] method, and each call of a method of
    the logger of the importer. *)
Inductive Event : Type :=
| Dispatch (at_time : Z) (deadline : Z) (url : string) (m : HttpMethod)
| Sleep (ms : Z)
| ConsoleDebug (msg : string)
| ConsoleDebugData (msg : string) (data : Js.value)
| ConsoleWarn (msg : string)
| ConsoleError (msg : string) (e : JsError)
| LoggerInfo (msg : string)
| LoggerDebug (msg : string)
| LoggerWarn (msg : string)
| LoggerError (msg : string).

(** The client's two mutable fields together with the clock ([Date.now()]),
    the number of [fetch] calls made so far, and the effects so far. *)
Record State : Type := {
  clock : Z;
  fetches : nat;
  lastRequestTime : Z;
  requestCount : Z;
  events : list Event
}.

(** A freshly constructed client at instant [t]. *)
Definition newClient (t : Z) : State :=
  {| clock := t; fetches := 0%nat; lastRequestTime := 0; requestCount := 0;
     events := [] |}.

(** ** Computations that may throw *)

Inductive Outcome (A : Type) : Type :=
| Ok (a : A)
| Throw (e : JsError).
Arguments Ok {A} a.
Arguments Throw {A} e.

Definition M (A : Type) : Type := State -> Outcome A * State.

Definition ret {A} (a : A) : M A := fun w => (Ok a, w).

Definition throw {A} (e : JsError) : M A := fun w => (Throw e, w).

Definition bind {A B} (m : M A) (k : A -> M B) : M B :=
  fun w =>
    match m w with
    | (Ok a, w') => k a w'
    | (Throw e, w') => (Throw e, w')
    end.

(** [try { m } catch (error) { h error }] *)
Definition tryCatch {A} (m : M A) (h : JsError -> M A) : M A :=
  fun w =>
    match m w with
    | (Ok a, w') => (Ok a, w')
    | (Throw e, w') => h e w'
    end.

Declare Scope js_scope.
Delimit Scope js_scope with js.
Notation "x <- m ;; k" := (bind m (fun x => k))
  (at level 61, m at next level, right associativity) : js_scope.
Notation "m ;; k" := (bind m (fun _ => k))
  (at level 61, right associativity) : js_scope.
Open Scope js_scope.

Definition emit (e : Event) : M unit :=
  fun w =>
    (Ok tt, {| clock := clock w; fetches := fetches w;
               lastRequestTime := lastRequestTime w;
               requestCount := requestCount w;
               events := e :: events w |}).

(** [Date.now()] *)
Definition dateNow : M Z := fun w => (Ok (clock w), w).

(** [await new Promise(resolve => setTimeout(resolve, ms))]: the caller
    resumes [ms] later (at once when [ms] is not positive). *)
Definition sleep (ms : Z) : M unit :=
  fun w =>
    (Ok tt, {| clock := clock w + Z.max 0 ms; fetches := fetches w;
               lastRequestTime := lastRequestTime w;
               requestCount := requestCount w;
               events := Sleep ms :: events w |}).

(** Updates of the two fields of the client. *)
Definition setLastRequestTime (t : Z) : M unit :=
  fun w =>
    (Ok tt, {| clock := clock w; fetches := fetches w;
               lastRequestTime := t;
               requestCount := requestCount w;
               events := events w |}).

(** [this.requestCount++] *)
Definition incrementRequestCount : M unit :=
  fun w =>
    (Ok tt, {| clock := clock w; fetches := fetches w;
               lastRequestTime := lastRequestTime w;
               requestCount := requestCount w + 1;
               events := events w |}).

Definition getLastRequestTime : M Z := fun w => (Ok (lastRequestTime w), w).

Definition getRequestCount : M Z := fun w => (Ok (requestCount w), w).

(** [AbortSignal.timeout(milliseconds)].  The argument is converted as an
    [unsigned long long] with [EnforceRange], whose accepted range is 0 to
    [2^53 - 1]: of the integers that a Number holds exactly, the negative
    ones make the call throw a [TypeError].  Otherwise the result is a
    signal that fires [milliseconds] after the call, given here as the
    instant at which it fires. *)
Definition AbortSignal_timeout (milliseconds : Z) : M Z :=
  fun w =>
    if milliseconds <? 0 then (Throw SignalRangeError, w)
    else (Ok (clock w + milliseconds), w).

(** ** The client ([FireflyApiClient]) *)

Section Engine.

Variable config : AppConfig.

(** The reply of the network to the [n]-th [fetch] of the session. *)
Variable network : nat -> NetReply.

(** [new URL(endpoint, baseUrl)] with the query parameters appended. *)
Variable resolveUrl : string -> string -> list (string * string) -> string.

(** [fetch(url, init)].  A signal that has already fired rejects the call
    at once; otherwise the reply of the network is delivered if it arrives
    before the signal fires, and the call is aborted at that instant if
    not. *)
Definition fetch (url : string) (init : RequestInit) : M Response :=
  fun w =>
    let after t :=
      {| clock := t; fetches := S (fetches w);
         lastRequestTime := lastRequestTime w;
         requestCount := requestCount w;
         events := Dispatch (clock w) (signal init) url (method init) :: events w |} in
    if signal init <=? clock w then (Throw TimeoutError, after (clock w))
    else
      match network (fetches w) with
      | Responds latency r =>
          if clock w + latency <? signal init
          then (Ok r, after (clock w + latency))
          else (Throw TimeoutError, after (signal init))
      | Fails latency reason =>
          if clock w + latency <? signal init
          then (Throw (NetworkError reason), after (clock w + latency))
          else (Throw TimeoutError, after (signal init))
      | Hangs => (Throw TimeoutError, after (signal init))
      end.

(** [logRequest] *)
Definition logRequest (url : string) (init : RequestInit) : M unit :=
  if LogLevel_eqb (level (logging config)) debug
  then emit (ConsoleDebug ("[FireflyAPI] " ++ methodName (method init) ++ " " ++ url))
  else ret tt.

(** [logResponse] *)
Definition logResponse (st : Z) (data : Js.value) : M unit :=
  if LogLevel_eqb (level (logging config)) debug
  then emit (ConsoleDebugData ("[FireflyAPI] Response " ++ Js.dec st ++ ":") data)
  else ret tt.

(** The message synthesized for an error response. *)
Definition httpMessage (response : Response) : string :=
  "HTTP " ++ Js.dec (status response) ++ ": " ++ statusText response.

(** [parseErrorResponse] *)
Definition parseErrorResponse (response : Response) : M Js.value :=
  match json response with
  | Some data => ret data
  | None => ret (Js.Object [("message", Js.Str (httpMessage response))])
  end.

(** [errorData.message]: a property read, which throws on [null]. *)
Definition readMessage (errorData : Js.value) : M (option Js.value) :=
  match errorData with
  | Js.Null => throw (NullPropertyError "message")
  | Js.Object fields => ret (Js.lookup "message" fields)
  | _ => ret None
  end.

(** [response.json()] on the success path. *)
Definition responseJson (response : Response) : M Js.value :=
  match json response with
  | Some data => ret data
  | None => throw JsonSyntaxError
  end.

(** [message || fallback] as the [Error] constructor stores it. *)
Definition orElse (message : option Js.value) (fallback : string) : string :=
  match message with
  | Some m => if Js.truthy message then Js.toString m else fallback
  | None => fallback
  end.

(** The body of the [try] block of [executeWithRetry]: one attempt. *)
Definition attemptOnce (url : string) (init : RequestInit) : M Js.value :=
  logRequest url init ;;
  response <- fetch url init ;;
  incrementRequestCount ;;
  if negb (ok response) then
    errorData <- parseErrorResponse response ;;
    message <- readMessage errorData ;;
    throw (FireflyApiError
             (orElse message (httpMessage response))
             (status response)
             (Some errorData))
  else
    data <- responseJson response ;;
    logResponse (status response) data ;;
    ret data.

(** The test of the [catch] clause that rethrows without retrying. *)
Definition isClientError (e : JsError) : bool :=
  match e with
  | FireflyApiError _ st _ => (400 <=? st) && (st <? 500)
  | PlainError _ _ => false
  end.

(** The delay computed in the [catch] clause. *)
Definition backoffDelay (attempt : Z) : Z :=
  retryDelay (firefly config) * 2 ^ attempt.

(** The wait at the end of the [catch] clause. *)
Definition backoff (attempt : Z) : M unit :=
  if attempt <? retryAttempts (firefly config) then
    let delay := backoffDelay attempt in
    emit (ConsoleWarn
            ("Request failed (attempt " ++ Js.dec (attempt + 1) ++ "/"
             ++ Js.dec (retryAttempts (firefly config) + 1)
             ++ "), retrying in " ++ Js.dec delay ++ "ms...")) ;;
    sleep delay
  else ret tt.

(** [throw lastError || new Error(...)] after the loop. *)
Definition exhausted (lastError : option JsError) : M Js.value :=
  match lastError with
  | Some e => throw e
  | None => throw (PlainError "Error" "Request failed after all retry attempts")
  end.

(** The [for] loop of [executeWithRetry] from a given value of [attempt],
    with the [catch] clause written on the outcome of the attempt.  Every
    thrown value here is an instance of [Error], so [lastError] is the
    caught error itself.  [fuel] bounds the iterations still to run; the
    loop stops by its own test, and [retryLoop_fuel] below shows that the
    result does not depend on the fuel once it covers the remaining
    values of [attempt]. *)
Fixpoint retryLoop (fuel : nat) (attempt : Z) (lastError : option JsError)
    (url : string) (init : RequestInit) : M Js.value :=
  match fuel with
  | O => exhausted lastError
  | S fuel' =>
      if attempt <=? retryAttempts (firefly config) then
        fun w =>
          match attemptOnce url init w with
          | (Ok data, w') => (Ok data, w')
          | (Throw e, w') =>
              if isClientError e then (Throw e, w')
              else (backoff attempt ;;
                    retryLoop fuel' (attempt + 1) (Some e) url init) w'
          end
      else exhausted lastError
  end.

(** [executeWithRetry]: the loop runs for [attempt] from [0] while
    [attempt <= retryAttempts]. *)
Definition executeWithRetry (url : string) (init : RequestInit) : M Js.value :=
  retryLoop (Z.to_nat (retryAttempts (firefly config) + 1)) 0 None url init.

(** [handleRateLimit] *)
Definition handleRateLimit : M unit :=
  now <- dateNow ;;
  last <- getLastRequestTime ;;
  let timeSinceLastRequest := now - last in
  let minInterval := 100 in
  (if timeSinceLastRequest <? minInterval
   then sleep (minInterval - timeSinceLastRequest)
   else ret tt) ;;
  now' <- dateNow ;;
  setLastRequestTime now'.

Definition sendsBody (m : HttpMethod) : bool :=
  match m with
  | POST | PUT | PATCH => true
  | GET | DELETE => false
  end.

(** The [url] built by [request]. *)
Definition requestUrl (endpoint : string) (options : RequestOptions) : string :=
  resolveUrl endpoint (baseUrl (firefly config))
    (match opt_params options with
     | Some params => map (fun kv => (fst kv, paramString (snd kv))) params
     | None => []
     end).

(** The [requestConfig] object built by [request] around the signal that
    [AbortSignal.timeout] returned; [fires] is the instant at which that
    signal fires. *)
Definition requestConfig (options : RequestOptions) (fires : Z) : RequestInit :=
  let m := match opt_method options with Some m => m | None => GET end in
  {| method := m;
     body := match opt_body options with
             | Some b => if sendsBody m then Some b else None
             | None => None
             end;
     signal := fires |}.

(** [request]: the [execute] operation of the engine.  The signal is
    created once, after the gate and before the loop; when
    [AbortSignal.timeout] throws, the call ends there. *)
Definition request (endpoint : string) (options : RequestOptions) : M Js.value :=
  handleRateLimit ;;
  let url := requestUrl endpoint options in
  fires <- AbortSignal_timeout (timeout (firefly config)) ;;
  executeWithRetry url (requestConfig options fires).

(** [testConnection] *)
Definition testConnection : M bool :=
  tryCatch
    (request "/api/v1/about" defaultOptions ;; ret true)
    (fun e => emit (ConsoleError "API connection test failed:" e) ;; ret false).

(** [getUser] *)
Definition getUser : M Js.value := request "/api/v1/about" defaultOptions.

(** [getCategories] *)
Definition getCategories : M Js.value := request "/api/v1/categories" defaultOptions.

Record Stats : Type := {
  stats_requestCount : Z;
  stats_lastRequestTime : Z
}.

(** [getStats] *)
Definition getStats : M Stats :=
  n <- getRequestCount ;;
  t <- getLastRequestTime ;;
  ret {| stats_requestCount := n; stats_lastRequestTime := t |}.

End Engine.

(** ** The bulk importer ([category-importer.ts]) *)

Record CategoryLocalData : Type := {
  name : string;
  notes : option string
}.

Record CreateCategoryRequest : Type := {
  req_name : string;
  req_notes : option string
}.

Section Importer.

(** [client.createCategory]: the method is called by the importer and by
    the tests but is not part of the client source at hand; the importer is
    verified for every operation of this type. *)
Variable createCategory : CreateCategoryRequest -> M Js.value.

(** One iteration of the [for] loop of [importCategories] on the counters
    [(created, errors)].  After [created++] the [try] block only logs and
    waits, which cannot throw, so the increment is returned at its end. *)
Definition importOne (category : CategoryLocalData) (counters : Z * Z)
  : M (Z * Z) :=
  tryCatch
    (emit (LoggerInfo ("📝 Creating: " ++ name category)) ;;
     createCategory {| req_name := name category; req_notes := notes category |} ;;
     emit (LoggerDebug ("✅ Created: " ++ name category)) ;;
     sleep 100 ;;
     ret (fst counters + 1, snd counters))
    (fun e =>
       emit (LoggerError ("❌ Failed to create " ++ name category ++ ": "
                          ++ errorMessage e)) ;;
       ret (fst counters, snd counters + 1)).

(** The [for (const category of categories)] loop. *)
Fixpoint importLoop (categories : list CategoryLocalData) (counters : Z * Z)
  : M (Z * Z) :=
  match categories with
  | [] => ret counters
  | category :: rest =>
      counters' <- importOne category counters ;;
      importLoop rest counters'
  end.

Definition newline : string := String (Ascii.ascii_of_nat 10) "".

(** The summary lines written once the loop is over. *)
Definition summary (created errors total : Z) : M unit :=
  emit (LoggerInfo (newline ++ "📊 Import Summary:")) ;;
  emit (LoggerInfo ("  ✅ Created: " ++ Js.dec created)) ;;
  emit (LoggerInfo ("  ❌ Errors: " ++ Js.dec errors)) ;;
  emit (LoggerInfo ("  📋 Total: " ++ Js.dec total)) ;;
  if 0 <? errors
  then emit (LoggerWarn "⚠️  Some categories could not be created. Check the logs above for details.")
  else emit (LoggerInfo "🎉 All categories imported successfully!").

(** [importCategories] *)
Definition importCategories (categories : list CategoryLocalData) : M unit :=
  let total := Z.of_nat (List.length categories) in
  emit (LoggerInfo ("🚀 Starting import of " ++ Js.dec total ++ " categories...")) ;;
  counters <- importLoop categories (0, 0) ;;
  summary (fst counters) (snd counters) total.

End Importer.

(** Modelled from the spec: [FireflyApiClient.createCategory], which the
    client source does not contain.  The spec lists [POST
    /api/v1/categories] with the category as JSON body, issued through the
    engine once per item. *)
Definition createCategory (config : AppConfig) (network : nat -> NetReply)
    (resolveUrl : string -> string -> list (string * string) -> string)
    (category : CreateCategoryRequest) : M Js.value :=
  request config network resolveUrl "/api/v1/categories"
    {| opt_method := Some POST;
       opt_body :=
         Some (Js.Object
                 (("name", Js.Str (req_name category))
                  :: match req_notes category with
                     | Some n => [("notes", Js.Str n)]
                     | None => []
                     end));
       opt_params := None |}.

(** ** Reading a run: attempts and waits *)

Inductive Step : Type := Attempt | Wait (ms : Z).

(** The [fetch] calls and timer waits among a list of events, in the
    order of the list. *)
Fixpoint timeline (l : list Event) : list Step :=
  match l with
  | [] => []
  | Dispatch _ _ _ _ :: rest => Attempt :: timeline rest
  | Sleep ms :: rest => Wait ms :: timeline rest
  | _ :: rest => timeline rest
  end.








(** A [fetch] whose deadline is a full timeout after its own start. *)
Definition ownDeadline (timeout_ms : Z) (e : Event) : bool :=
  match e with
  | Dispatch t deadline _ _ => deadline =? t + timeout_ms
  | _ => true
  end.

(** ** Concrete settings used in examples *)

Definition exampleConfig (timeout_ms attempts delay : Z) : AppConfig :=
  {| firefly := {| baseUrl := "https://mock-firefly.test";
                   apiToken := "mock-token-for-testing";
                   timeout := timeout_ms;
                   retryAttempts := attempts;
                   retryDelay := delay |};
     logging := {| level := error; logToFile := false; logFile := "test.log" |} |}.

Definition exampleUrl (endpoint base : string) (params : list (string * string)) : string :=
  base ++ endpoint.

Definition respond (st : Z) (text : string) (b : option Js.value) : Response :=
  {| status := st; statusText := text; json := b |}.

(** ** Vocabulary of the statements *)

(** Every run of [m] relates its initial state to its final state by
    [R], whether it returns or throws. *)
Definition respects (R : State -> State -> Prop) {A} (m : M A) : Prop :=
  forall w, R w (snd (m w)).

(** The request counter does not decrease. *)
Definition counterGrows (a b : State) : Prop := requestCount a <= requestCount b.

(** The last-request timestamp is untouched. *)
Definition timestampKept (a b : State) : Prop := lastRequestTime b = lastRequestTime a.

(** Effects are only ever added, in front of the earlier ones. *)
Definition extends (a b : State) : Prop := exists new, events b = (new ++ events a)%list.

(** The error thrown for a response that is not [ok], from what its body
    decodes to. *)
Definition classified (response : Response) : JsError :=
  match json response with
  | Some Js.Null => NullPropertyError "message"
  | Some (Js.Object fields as errorData) =>
      FireflyApiError (orElse (Js.lookup "message" fields) (httpMessage response))
        (status response) (Some errorData)
  | Some errorData =>
      FireflyApiError (httpMessage response) (status response) (Some errorData)
  | None =>
      FireflyApiError (httpMessage response) (status response)
        (Some (Js.Object [("message", Js.Str (httpMessage response))]))
  end.

(** The result of a [fetch] depends on the clock, the signal and the
    reply of the network only. *)
Definition fetchResult (network : nat -> NetReply) (init : RequestInit)
    (now : Z) (n : nat) : Outcome Response * Z :=
  if signal init <=? now then (Throw TimeoutError, now)
  else
    match network n with
    | Responds latency r =>
        if now + latency <? signal init then (Ok r, now + latency)
        else (Throw TimeoutError, signal init)
    | Fails latency reason =>
        if now + latency <? signal init then (Throw (NetworkError reason), now + latency)
        else (Throw TimeoutError, signal init)
    | Hangs => (Throw TimeoutError, signal init)
    end.

(** An event that is not a [fetch], or a [fetch] under deadline [d]. *)
Definition boundTo (d : Z) (e : Event) : Prop :=
  match e with
  | Dispatch _ d' _ _ => d' = d
  | _ => True
  end.

(** The cases in which the signal fires before the [fetch] settles. *)
Definition expires (network : nat -> NetReply) (deadline : Z) (w : State) : Prop :=
  deadline <= clock w \/
  network (fetches w) = Hangs \/
  (exists latency r,
      network (fetches w) = Responds latency r /\ deadline <= clock w + latency) \/
  (exists latency reason,
      network (fetches w) = Fails latency reason /\ deadline <= clock w + latency).

(** ** Concrete runs used in examples *)

Definition aboutUrl : string := "https://mock-firefly.test/api/v1/about".

(** A server that answers 503 once and 200 from then on, each after
    [latency] ms. *)
Definition transientNetwork (latency : Z) (n : nat) : NetReply :=
  match n with
  | O => Responds latency (respond 503 "Service Unavailable" None)
  | S _ => Responds latency (respond 200 "OK" (Some (Js.Object [("data", Js.Array [])])))
  end.

(** A server that answers every request with the same response after
    20 ms. *)
Definition constantNetwork (r : Response) (n : nat) : NetReply := Responds 20 r.

(** A host that refuses every connection. *)
Definition refusingNetwork (n : nat) : NetReply :=
  Fails 5 "error sending request: connection refused".

(** A 404 whose body is the JSON value [null], requested with two
    retries and a base delay of 1000 ms. *)
Definition nullNotFoundRun : Outcome Js.value * State :=
  request (exampleConfig 30000 2 1000)
    (constantNetwork (respond 404 "Not Found" (Some Js.Null)))
    exampleUrl "/api/v1/categories/1" defaultOptions (newClient 5000).

(** A 500 whose body is the JSON value [null], and one attempt that
    receives it. *)
Definition nullServerError : Response :=
  respond 500 "Internal Server Error" (Some Js.Null).

Definition nullServerErrorAttempt : Outcome Js.value * State :=
  attemptOnce (exampleConfig 30000 0 1000) (constantNetwork nullServerError) aboutUrl
    (requestConfig defaultOptions 35000) (newClient 5000).

(** Timeout 1000 ms, one retry after 100 ms, replies after 600 ms. *)
Definition slowTransientRun : Outcome Js.value * State :=
  request (exampleConfig 1000 1 100) (transientNetwork 600) exampleUrl "/api/v1/about"
    defaultOptions (newClient 5000).

(** The state in which the second attempt of [slowTransientRun] is made. *)
Definition secondAttempt : State :=
  {| clock := 5700; fetches := 1%nat; lastRequestTime := 5000; requestCount := 1;
     events := [] |}.

(** A server that leaves the first request unanswered and answers every
    later one with 200 after 20 ms. *)
Definition recoveringNetwork (n : nat) : NetReply :=
  match n with
  | O => Hangs
  | S _ => Responds 20 (respond 200 "OK" (Some (Js.Object [("data", Js.Array [])])))
  end.

(** Timeout 1000 ms, two retries, base delay 100 ms, against that
    server. *)
Definition recoveringRun : Outcome Js.value * State :=
  request (exampleConfig 1000 2 100) recoveringNetwork exampleUrl "/api/v1/about"
    defaultOptions (newClient 5000).


(** Two retries against a host that refuses the connection. *)
Definition refusedRun : Outcome Js.value * State :=
  request (exampleConfig 30000 2 1000) refusingNetwork exampleUrl "/api/v1/about"
    defaultOptions (newClient 5000).


(** Three items of which the second is refused as a duplicate. *)
Definition duplicateNetwork (n : nat) : NetReply :=
  match n with
  | 1%nat =>
      Responds 20
        (respond 422 "Unprocessable Entity"
           (Some (Js.Object [("message", Js.Str "The name has already been taken.")])))
  | _ => Responds 20 (respond 201 "Created" (Some (Js.Object [("data", Js.Object [])])))
  end.

Definition duplicateImport : Outcome unit * State :=
  importCategories (createCategory (exampleConfig 30000 3 1000) duplicateNetwork exampleUrl)
    [ {| name := "Groceries"; notes := None |};
      {| name := "Groceries"; notes := None |};
      {| name := "Rent"; notes := Some "monthly" |} ]
    (newClient 0).

(** ** Further vocabulary for the engine *)





(** An event that is not a [fetch], or the [fetch] of one given request. *)
Definition sendsOnly (url : string) (init : RequestInit) (e : Event) : Prop :=
  match e with
  | Dispatch _ deadline u m => deadline = signal init /\ u = url /\ m = method init
  | _ => True
  end.

(** The line [logRequest] writes. *)
Definition isRequestTrace (e : Event) : bool :=
  match e with
  | ConsoleDebug _ => true
  | _ => false
  end.

(** The line [logResponse] writes. *)
Definition isResponseTrace (e : Event) : bool :=
  match e with
  | ConsoleDebugData _ _ => true
  | _ => false
  end.

(** ** The file steps of the importer ([category-importer.ts]) *)

Module CategoryFile.

Record t : Type := {
  path : string;
  name : string
}.

End CategoryFile.

Definition categoriesDir : string := "./data/categories".

Definition knownFiles : list string :=
  [ "categories-pt-br.json"; "categories-en.json";
    "categories-fr.json"; "categories-es.json" ].

Fixpoint dropChars (n : nat) (s : string) : string :=
  match n, s with
  | O, _ => s
  | S n', String _ rest => dropChars n' rest
  | S _, EmptyString => EmptyString
  end.

(** [s.replace(pattern, replacement)] for a string pattern and a
    replacement without [$]: the first occurrence is replaced. *)
Fixpoint replaceFirst (pattern replacement s : string) : string :=
  if String.prefix pattern s
  then replacement ++ dropChars (String.length pattern) s
  else
    match s with
    | EmptyString => EmptyString
    | String c rest => String c (replaceFirst pattern replacement rest)
    end.

(** The path built for a known file name. *)
Definition categoryPath (fileName : string) : string :=
  categoriesDir ++ "/" ++ fileName.

Section FileSteps.

(** [exists(path)] of the standard library: whether the path is there. *)
Variable pathExists : string -> bool.

(** [Deno.readTextFile(path)]: the text of the file, or the error it
    rejects with. *)
Variable readTextFile : string -> Outcome string.

(** [JSON.parse(text)]: the decoded value, or the [SyntaxError] thrown. *)
Variable JSON_parse : string -> Outcome Js.value.

(** The [for (const fileName of knownFiles)] loop of [scanCategoryFiles]. *)
Fixpoint scanLoop (fileNames : list string) : list CategoryFile.t :=
  match fileNames with
  | [] => []
  | fileName :: rest =>
      let filePath := categoryPath fileName in
      if pathExists filePath
      then {| CategoryFile.path := filePath;
              CategoryFile.name := replaceFirst ".json" "" fileName |}
           :: scanLoop rest
      else scanLoop rest
  end.

(** [scanCategoryFiles] *)
Definition scanCategoryFiles : M (list CategoryFile.t) :=
  if negb (pathExists categoriesDir)
  then throw (PlainError "Error" "Categories directory not found: ./data/categories")
  else ret (scanLoop knownFiles).

(** The [files.forEach] of [selectCategoryFile], from a given index. *)
Fixpoint listFiles (index : Z) (files : list CategoryFile.t) : M unit :=
  match files with
  | [] => ret tt
  | file :: rest =>
      emit (LoggerDebug ("  " ++ Js.dec (index + 1) ++ ". " ++ CategoryFile.name file)) ;;
      listFiles (index + 1) rest
  end.

(** [selectCategoryFile] *)
Definition selectCategoryFile (files : list CategoryFile.t) : M CategoryFile.t :=
  match files with
  | [] => throw (PlainError "Error" "No category files found in ./data/categories")
  | [file] =>
      emit (LoggerInfo ("📁 Using only available file: " ++ CategoryFile.name file)) ;;
      ret file
  | file :: _ =>
      emit (LoggerDebug (newline ++ "📁 Available category files:")) ;;
      listFiles 0 files ;;
      emit (LoggerDebug (newline ++ "Please select a file by entering its number:")) ;;
      emit (LoggerWarn "⚠️  Using first file as default (interactive selection not yet implemented)") ;;
      ret file
  end.

(** [category.name]: a property read, which throws on [null]. *)
Definition readName (category : Js.value) : Outcome (option Js.value) :=
  match category with
  | Js.Null => Throw (NullPropertyError "name")
  | Js.Object fields => Ok (Js.lookup "name" fields)
  | _ => Ok None
  end.

(** [typeof v === "string"] on the result of a property read. *)
Definition isString (v : option Js.value) : bool :=
  match v with
  | Some (Js.Str _) => true
  | _ => false
  end.

(** The validation loop of [loadCategoriesFromFile]. *)
Fixpoint validateCategories (categories : list Js.value) : Outcome unit :=
  match categories with
  | [] => Ok tt
  | category :: rest =>
      match readName category with
      | Throw e => Throw e
      | Ok n =>
          if negb (Js.truthy n) || negb (isString n)
          then Throw (PlainError "Error" "Each category must have a 'name' field")
          else validateCategories rest
      end
  end.

(** The [try] block of [loadCategoriesFromFile]. *)
Definition readCategories (filePath : string) : Outcome (list Js.value) :=
  match readTextFile filePath with
  | Throw e => Throw e
  | Ok content =>
      match JSON_parse content with
      | Throw e => Throw e
      | Ok (Js.Array categories) =>
          match validateCategories categories with
          | Throw e => Throw e
          | Ok _ => Ok categories
          end
      | Ok _ => Throw (PlainError "Error" "Categories file must contain an array")
      end
  end.

(** [loadCategoriesFromFile] *)
Definition loadCategoriesFromFile (filePath : string) : Outcome (list Js.value) :=
  match readCategories filePath with
  | Ok categories => Ok categories
  | Throw e =>
      Throw (PlainError "Error"
               ("Failed to load categories from " ++ filePath ++ ": " ++ errorMessage e))
  end.

End FileSteps.

(** An element the validation accepts: an object whose [name] is a
    non-empty string. *)
Definition namedCategory (category : Js.value) : bool :=
  match category with
  | Js.Object fields =>
      match Js.lookup "name" fields with
      | Some (Js.Str s) => negb (String.eqb s "")
      | _ => false
      end
  | _ => false
  end.

(** ** The configuration manager ([config-manager.ts]) *)

(** The configuration file at its declared type [Partial<AppConfig>]:
    every section and every field may be missing. *)
Record PartialFireflyConfig : Type := {
  file_baseUrl : option string;
  file_apiToken : option string;
  file_timeout : option Z;
  file_retryAttempts : option Z;
  file_retryDelay : option Z
}.

Record PartialLoggingConfig : Type := {
  file_level : option string;
  file_logToFile : option bool;
  file_logFile : option string
}.

Record PartialCacheConfig : Type := {
  file_enabled : option bool;
  file_ttl : option Z
}.

Record PartialAppConfig : Type := {
  file_firefly : option PartialFireflyConfig;
  file_logging : option PartialLoggingConfig;
  file_cache : option PartialCacheConfig
}.

(** [{}], the file configuration when the file cannot be read or parsed. *)
Definition emptyFileConfig : PartialAppConfig :=
  {| file_firefly := None; file_logging := None; file_cache := None |}.

(** The configuration [loadConfig] builds.  The log level is the string
    that was found: it is not checked against the four level names. *)
Record LoadedConfig : Type := {
  loaded_firefly : FireflyConfig;
  loaded_level : string;
  loaded_logToFile : bool;
  loaded_logFile : string;
  loaded_cacheEnabled : bool;
  loaded_cacheTtl : Z
}.

(** The [ConfigManager] instance: its cached configuration, and the
    messages it has written with [console.warn], most recent first. *)
Record Manager : Type := {
  cached : option LoadedConfig;
  warnings : list string
}.

Definition newManager : Manager := {| cached := None; warnings := [] |}.

(** [fileConfig.section?.field] *)
Definition fileField {S A} (section : option S) (field : S -> option A) : option A :=
  match section with
  | Some s => field s
  | None => None
  end.

(** [a || b || c] on strings that may be undefined: the empty string is
    falsy. *)
Definition stringOr (a : option string) (rest : string) : string :=
  match a with
  | Some s => if String.eqb s "" then rest else s
  | None => rest
  end.

(** [a || b] on numbers that may be undefined or [NaN]: zero is falsy. *)
Definition numberOr (a : option Z) (rest : Z) : Z :=
  match a with
  | Some n => if n =? 0 then rest else n
  | None => rest
  end.

Section ConfigManager.

(** [parseInt(text)]: the integer read, or [None] for [NaN]. *)
Variable parseInt : string -> option Z.

(** Whether [new URL(text)] returns rather than throws. *)
Variable validUrl : string -> bool.

(** [text.length], in UTF-16 code units. *)
Variable jsLength : string -> nat.

(** [parseInt(env || literal) || fileValue || fallback] *)
Definition numberSetting (envValue : option string) (literal : string)
    (fileValue : option Z) (fallback : Z) : Z :=
  numberOr (parseInt (stringOr envValue literal)) (numberOr fileValue fallback).

(** The [config] object of [loadConfig], from the environment
    ([Deno.env.get]) and the file configuration. *)
Definition buildConfig (env : string -> option string) (fileConfig : PartialAppConfig)
  : LoadedConfig :=
  let ff := file_firefly fileConfig in
  let fl := file_logging fileConfig in
  let fc := file_cache fileConfig in
  {| loaded_firefly :=
       {| baseUrl :=
            stringOr (env "FIREFLY_BASE_URL") (stringOr (fileField ff file_baseUrl) "");
          apiToken :=
            stringOr (env "FIREFLY_API_TOKEN") (stringOr (fileField ff file_apiToken) "");
          timeout :=
            numberSetting (env "FIREFLY_TIMEOUT") "30000"
              (fileField ff file_timeout) 30000;
          retryAttempts :=
            numberSetting (env "FIREFLY_RETRY_ATTEMPTS") "3"
              (fileField ff file_retryAttempts) 3;
          retryDelay :=
            numberSetting (env "FIREFLY_RETRY_DELAY") "1000"
              (fileField ff file_retryDelay) 1000 |};
     loaded_level :=
       stringOr (env "LOG_LEVEL") (stringOr (fileField fl file_level) "info");
     loaded_logToFile :=
       match env "LOG_TO_FILE" with
       | Some s => String.eqb s "true"
       | None => false
       end
       || match fileField fl file_logToFile with
          | Some b => b
          | None => false
          end;
     loaded_logFile :=
       stringOr (env "LOG_FILE")
         (stringOr (fileField fl file_logFile) "firefly-tools.log");
     loaded_cacheEnabled :=
       negb match env "CACHE_ENABLED" with
            | Some s => String.eqb s "false"
            | None => false
            end
       && negb match fileField fc file_enabled with
               | Some b => negb b
               | None => false
               end;
     loaded_cacheTtl :=
       numberSetting (env "CACHE_TTL") "300000" (fileField fc file_ttl) 300000 |}.

Definition baseUrlRequired : JsError :=
  PlainError "Error"
    "Firefly III base URL is required (set FIREFLY_BASE_URL or configure in config.json)".

Definition apiTokenRequired : JsError :=
  PlainError "Error"
    "Firefly III API token is required (set FIREFLY_API_TOKEN or configure in config.json)".

Definition invalidBaseUrl : JsError :=
  PlainError "Error" "Invalid Firefly III base URL format".

Definition tokenTooShort : JsError :=
  PlainError "Error" "Firefly III API token appears to be invalid (too short)".

(** [validateConfig] *)
Definition validateConfig (config : LoadedConfig) : Outcome unit :=
  if String.eqb (baseUrl (loaded_firefly config)) "" then Throw baseUrlRequired
  else if String.eqb (apiToken (loaded_firefly config)) "" then Throw apiTokenRequired
  else if negb (validUrl (baseUrl (loaded_firefly config))) then Throw invalidBaseUrl
  else if (jsLength (apiToken (loaded_firefly config)) <? 10)%nat then Throw tokenTooShort
  else Ok tt.

(** [loadConfig].  [env] is the environment at the time of the call and
    [file] the outcome of reading and parsing [./config/config.json]. *)
Definition loadConfig (env : string -> option string) (file : Outcome PartialAppConfig)
    (manager : Manager) : Outcome LoadedConfig * Manager :=
  match cached manager with
  | Some config => (Ok config, manager)
  | None =>
      let fileConfig :=
        match file with
        | Ok parsed => parsed
        | Throw _ => emptyFileConfig
        end in
      let warned :=
        match file with
        | Ok _ => warnings manager
        | Throw e =>
            ("Could not load config/config.json, using environment variables only: "
             ++ errorMessage e) :: warnings manager
        end in
      let config := buildConfig env fileConfig in
      match validateConfig config with
      | Throw e => (Throw e, {| cached := None; warnings := warned |})
      | Ok _ => (Ok config, {| cached := Some config; warnings := warned |})
      end
  end.

(** [getConfig] *)
Definition getConfig (manager : Manager) : option LoadedConfig := cached manager.

(** [clearConfig] *)
Definition clearConfig (manager : Manager) : Manager :=
  {| cached := None; warnings := warnings manager |}.

End ConfigManager.

(** ** The logger ([logger.ts]) *)

(** The [levels] table of [shouldLog]; a key that is not in the table
    gives no number. *)
Definition levelRank (levelName : string) : option Z :=
  if String.eqb levelName "debug" then Some 0
  else if String.eqb levelName "info" then Some 1
  else if String.eqb levelName "warn" then Some 2
  else if String.eqb levelName "error" then Some 3
  else None.

Definition levelName (l : LogLevel) : string :=
  match l with
  | debug => "debug"
  | info => "info"
  | warn => "warn"
  | error => "error"
  end.

(** The number of a level in the [levels] table. *)
Definition severity (l : LogLevel) : Z :=
  match l with
  | debug => 0
  | info => 1
  | warn => 2
  | error => 3
  end.

(** [shouldLog(level)] on a logger whose configuration, when it has one,
    has the level [configured].  A comparison with a missing number is
    false. *)
Definition shouldLog (configured : option string) (l : LogLevel) : bool :=
  match configured with
  | None => true
  | Some name =>
      match levelRank (levelName l), levelRank name with
      | Some mine, Some threshold => threshold <=? mine
      | _, _ => false
      end
  end.

(** ** The setup script: [copyConfigTemplate] *)

(** The files the script touches: the text at each path, if there is a
    file, whether a write to the path succeeds, and the errors a failed
    read or write rejects with. *)
Record FileSystem : Type := {
  fileText : string -> option string;
  writable : string -> bool;
  readError : string -> JsError;
  writeError : string -> JsError
}.

Inductive ConsoleLine : Type :=
| ConsoleLog (msg : string)
| ConsoleErrorLine (msg : string) (e : JsError).

(** [fileExists(path)]: whether [Deno.stat] resolves. *)
Definition fileExists (fs : FileSystem) (path : string) : bool :=
  match fileText fs path with
  | Some _ => true
  | None => false
  end.

(** [Deno.writeTextFile(path, data)] when it succeeds. *)
Definition writeTextFile (fs : FileSystem) (path data : string) : FileSystem :=
  {| fileText := fun p => if String.eqb p path then Some data else fileText fs p;
     writable := writable fs;
     readError := readError fs;
     writeError := writeError fs |}.

Definition templatePath : string := "./config/config.example.json".

Definition configPath : string := "./config/config.json".

(** [copyConfigTemplate]: the file system it leaves and the lines it
    prints, oldest first. *)
Definition copyConfigTemplate (fs : FileSystem) : FileSystem * list ConsoleLine :=
  if fileExists fs configPath then
    (fs, [ConsoleLog "⚠️  Configuration file already exists at config/config.json"])
  else
    match fileText fs templatePath with
    | None =>
        (fs, [ConsoleErrorLine "❌ Failed to copy configuration template:"
                (readError fs templatePath)])
    | Some template =>
        if writable fs configPath then
          (writeTextFile fs configPath template,
           [ConsoleLog "✅ Created config/config.json from template";
            ConsoleLog "📝 Please edit config/config.json with your Firefly III details"])
        else
          (fs, [ConsoleErrorLine "❌ Failed to copy configuration template:"
                  (writeError fs configPath)])
    end.

(** ** Concrete environments used in examples *)


(** A 403 with the error envelope of the service. *)
Definition forbidden : Response :=
  respond 403 "Forbidden" (Some (Js.Object [("message", Js.Str "Forbidden")])).


(** Options of a creation: a [POST] with a body. *)
Definition postOptions : RequestOptions :=
  {| opt_method := Some POST;
     opt_body := Some (Js.Object [("name", Js.Str "Groceries")]);
     opt_params := None |}.

(** A data directory that holds the Portuguese and the French file. *)
Definition twoFilesExist (p : string) : bool :=
  String.eqb p "./data/categories"
  || String.eqb p "./data/categories/categories-pt-br.json"
  || String.eqb p "./data/categories/categories-fr.json".

(** A data directory without any of the known files. *)
Definition emptyDirExists (p : string) : bool := String.eqb p "./data/categories".

Definition nothingExists (p : string) : bool := false.

(** A category file with one valid element: its text and what the text
    parses to. *)
Definition readsOneCategory (p : string) : Outcome string := Ok "categories".

Definition parsesOneCategory (text : string) : Outcome Js.value :=
  Ok (Js.Array [Js.Object [("name", Js.Str "Food")]]).

Definition readFails (p : string) : Outcome string :=
  Throw (PlainError "NotFound" "No such file or directory").

(** Decimal digits read from the left, as [parseInt] reads plain decimal
    text: the digits up to the first other character, none giving [NaN]. *)
Fixpoint readDigits (s : string) (acc : Z) (seen : bool) : option Z :=
  match s with
  | EmptyString => if seen then Some acc else None
  | String c rest =>
      let n := Z.of_nat (Ascii.nat_of_ascii c) in
      if (48 <=? n) && (n <=? 57)
      then readDigits rest (10 * acc + (n - 48)) true
      else if seen then Some acc else None
  end.

Definition decimalParseInt (s : string) : option Z :=
  match s with
  | String c rest =>
      if Ascii.eqb c (Ascii.ascii_of_nat 45)
      then match readDigits rest 0 false with
           | Some n => Some (- n)
           | None => None
           end
      else readDigits s 0 false
  | EmptyString => None
  end.

(** A stand-in for the URL parser: an http or https scheme. *)
Definition schemeUrl (s : string) : bool :=
  String.prefix "https://" s || String.prefix "http://" s.

(** The environment of the unit tests of the configuration manager. *)
Definition testEnv (key : string) : option string :=
  if String.eqb key "FIREFLY_BASE_URL" then Some "https://test.firefly-iii.org"
  else if String.eqb key "FIREFLY_API_TOKEN" then Some "test-token-12345"
  else None.

(** The same with a level that is not a level name. *)
Definition verboseEnv (key : string) : option string :=
  if String.eqb key "LOG_LEVEL" then Some "verbose" else testEnv key.


(** A configuration file that asks for a timeout of 5 s and no retry
    delay below 250 ms. *)
Definition tunedFile : PartialAppConfig :=
  {| file_firefly :=
       Some {| file_baseUrl := None; file_apiToken := None;
               file_timeout := Some 5000; file_retryAttempts := Some 1;
               file_retryDelay := Some 250 |};
     file_logging := None;
     file_cache := None |}.

Definition missingFile : Outcome PartialAppConfig :=
  Throw (PlainError "NotFound" "No such file or directory").

(** A file system that holds the template only. *)
Definition templateOnly : FileSystem :=
  {| fileText := fun p =>
       if String.eqb p "./config/config.example.json" then Some "{}" else None;
     writable := fun _ => true;
     readError := fun _ => PlainError "NotFound" "No such file or directory";
     writeError := fun _ => PlainError "PermissionDenied" "Permission denied" |}.


(** * Properties *)

(** ** Relations between the state before and after a computation *)

Section Frames.

Variable R : State -> State -> Prop.
Hypothesis R_refl : forall w, R w w.
Hypothesis R_trans : forall a b c, R a b -> R b c -> R a c.

Lemma respects_ret {A} (a : A) : respects R (ret a).
Proof. intro w. apply R_refl. Qed.

Lemma respects_throw {A} (e : JsError) : respects R (@throw A e).
Proof. intro w. apply R_refl. Qed.

Lemma respects_bind {A B} (m : M A) (k : A -> M B) :
  respects R m -> (forall a, respects R (k a)) -> respects R (bind m k).
Proof.
  intros Hm Hk w. unfold bind.
  specialize (Hm w). destruct (m w) as [[a | e] w1]; simpl in *.
  - eapply R_trans; [exact Hm | apply Hk].
  - exact Hm.
Qed.


Lemma respects_if {A} (b : bool) (m1 m2 : M A) :
  respects R m1 -> respects R m2 -> respects R (if b then m1 else m2).
Proof. destruct b; auto. Qed.


Lemma respects_getLastRequestTime : respects R getLastRequestTime.
Proof. intro w. apply R_refl. Qed.


Lemma respects_getRequestCount : respects R getRequestCount.
Proof. intro w. apply R_refl. Qed.

Section EngineFrames.

Variable config : AppConfig.
Variable network : nat -> NetReply.
Variable resolveUrl : string -> string -> list (string * string) -> string.

Hypothesis R_emit : forall e, respects R (emit e).
Hypothesis R_sleep : forall ms, respects R (sleep ms).
Hypothesis R_fetch : forall url init, respects R (fetch network url init).
Hypothesis R_count : respects R incrementRequestCount.

Lemma respects_logRequest url init : respects R (logRequest config url init).
Proof. unfold logRequest. apply respects_if; [apply R_emit | apply respects_ret]. Qed.

Lemma respects_logResponse st data : respects R (logResponse config st data).
Proof. unfold logResponse. apply respects_if; [apply R_emit | apply respects_ret]. Qed.

Lemma respects_parseErrorResponse r : respects R (parseErrorResponse r).
Proof. unfold parseErrorResponse. destruct (json r); apply respects_ret. Qed.

Lemma respects_readMessage v : respects R (readMessage v).
Proof. destruct v; simpl; first [apply respects_ret | apply respects_throw]. Qed.

Lemma respects_responseJson r : respects R (responseJson r).
Proof.
  unfold responseJson. destruct (json r); [apply respects_ret | apply respects_throw].
Qed.

Lemma respects_attemptOnce url init :
  respects R (attemptOnce config network url init).
Proof.
  unfold attemptOnce.
  apply respects_bind; [apply respects_logRequest | intros _].
  apply respects_bind; [apply R_fetch | intros response].
  apply respects_bind; [apply R_count | intros _].
  destruct (negb (ok response)).
  - apply respects_bind; [apply respects_parseErrorResponse | intros errorData].
    apply respects_bind; [apply respects_readMessage | intros message].
    apply respects_throw.
  - apply respects_bind; [apply respects_responseJson | intros data].
    apply respects_bind; [apply respects_logResponse | intros _].
    apply respects_ret.
Qed.

Lemma respects_backoff attempt : respects R (backoff config attempt).
Proof.
  unfold backoff. apply respects_if; [| apply respects_ret].
  apply respects_bind; [apply R_emit | intros _; apply R_sleep].
Qed.

Lemma respects_exhausted lastError : respects R (exhausted lastError).
Proof. destruct lastError; apply respects_throw. Qed.

Lemma respects_retryLoop fuel : forall attempt lastError url init,
  respects R (retryLoop config network fuel attempt lastError url init).
Proof.
  induction fuel as [| fuel IH]; intros attempt lastError url init; simpl.
  - apply respects_exhausted.
  - destruct (attempt <=? retryAttempts (firefly config));
      [| apply respects_exhausted].
    intro w.
    pose proof (respects_attemptOnce url init w) as H1.
    destruct (attemptOnce config network url init w) as [[data | e] w1]; simpl in *.
    + exact H1.
    + destruct (isClientError e); simpl; [exact H1 |].
      eapply R_trans; [exact H1 |].
      apply (respects_bind (backoff config attempt)
               (fun _ => retryLoop config network fuel (attempt + 1) (Some e) url init)).
      * apply respects_backoff.
      * intros _. apply IH.
Qed.

Lemma respects_executeWithRetry url init :
  respects R (executeWithRetry config network url init).
Proof. apply respects_retryLoop. Qed.

Hypothesis R_gate : respects R handleRateLimit.



Lemma respects_getStats : respects R getStats.
Proof.
  unfold getStats.
  apply respects_bind; [apply respects_getRequestCount | intros n].
  apply respects_bind; [apply respects_getLastRequestTime | intros t].
  apply respects_ret.
Qed.

End EngineFrames.

End Frames.

Lemma counterGrows_refl w : counterGrows w w.
Proof. unfold counterGrows. lia. Qed.

Lemma counterGrows_trans a b c : counterGrows a b -> counterGrows b c -> counterGrows a c.
Proof. unfold counterGrows. lia. Qed.

Lemma timestampKept_refl w : timestampKept w w.
Proof. reflexivity. Qed.

Lemma timestampKept_trans a b c : timestampKept a b -> timestampKept b c -> timestampKept a c.
Proof. unfold timestampKept. congruence. Qed.

Lemma extends_refl w : extends w w.
Proof. exists []. reflexivity. Qed.

Lemma extends_trans a b c : extends a b -> extends b c -> extends a c.
Proof.
  intros [n1 H1] [n2 H2]. exists (n2 ++ n1)%list.
  rewrite H2, H1. apply app_assoc.
Qed.

Ltac primitive :=
  intro w;
  unfold counterGrows, timestampKept, emit, sleep, incrementRequestCount,
    setLastRequestTime;
  simpl; try lia; try reflexivity.

Lemma counter_emit e : respects counterGrows (emit e).
Proof. primitive. Qed.

Lemma counter_sleep ms : respects counterGrows (sleep ms).
Proof. primitive. Qed.

Lemma counter_fetch network url init : respects counterGrows (fetch network url init).
Proof. intro w. unfold fetch, counterGrows.
  destruct (signal init <=? clock w); [simpl; lia |].
  destruct (network (fetches w)) as [d r | d reason |];
    try destruct (clock w + d <? signal init); simpl; lia.
Qed.

Lemma counter_increment : respects counterGrows incrementRequestCount.
Proof. primitive. Qed.



Lemma timestamp_emit e : respects timestampKept (emit e).
Proof. primitive. Qed.

Lemma timestamp_sleep ms : respects timestampKept (sleep ms).
Proof. primitive. Qed.

Lemma timestamp_fetch network url init : respects timestampKept (fetch network url init).
Proof. intro w. unfold fetch, timestampKept.
  destruct (signal init <=? clock w); [reflexivity |].
  destruct (network (fetches w)) as [d r | d reason |];
    try destruct (clock w + d <? signal init); reflexivity.
Qed.

Lemma timestamp_increment : respects timestampKept incrementRequestCount.
Proof. primitive. Qed.

Lemma extends_emit e : respects extends (emit e).
Proof. intro w. exists [e]. reflexivity. Qed.

Lemma extends_sleep ms : respects extends (sleep ms).
Proof. intro w. exists [Sleep ms]. reflexivity. Qed.

Lemma extends_fetch network url init : respects extends (fetch network url init).
Proof. intro w. unfold fetch, extends.
  exists [Dispatch (clock w) (signal init) url (method init)].
  destruct (signal init <=? clock w); [reflexivity |].
  destruct (network (fetches w)) as [d r | d reason |];
    try destruct (clock w + d <? signal init); reflexivity.
Qed.

Lemma extends_increment : respects extends incrementRequestCount.
Proof. intro w. exists []. reflexivity. Qed.

(** The retry loop never decreases the counter, never touches the
    timestamp, and only adds effects. *)
Lemma executeWithRetry_counter config network url init :
  respects counterGrows (executeWithRetry config network url init).
Proof.
  apply (respects_executeWithRetry counterGrows counterGrows_refl counterGrows_trans);
    auto using counter_emit, counter_sleep, counter_fetch, counter_increment.
Qed.

Lemma executeWithRetry_timestamp config network url init :
  respects timestampKept (executeWithRetry config network url init).
Proof.
  apply (respects_executeWithRetry timestampKept timestampKept_refl timestampKept_trans);
    auto using timestamp_emit, timestamp_sleep, timestamp_fetch, timestamp_increment.
Qed.

Lemma executeWithRetry_extends config network url init :
  respects extends (executeWithRetry config network url init).
Proof.
  apply (respects_executeWithRetry extends extends_refl extends_trans);
    auto using extends_emit, extends_sleep, extends_fetch, extends_increment.
Qed.



(** ** The rate-limit gate *)

(** What [handleRateLimit] does, case by case on the elapsed time. *)
Lemma handleRateLimit_run w :
  handleRateLimit w =
    let elapsed := clock w - lastRequestTime w in
    let t := if elapsed <? 100 then clock w + Z.max 0 (100 - elapsed) else clock w in
    (Ok tt,
     {| clock := t; fetches := fetches w; lastRequestTime := t;
        requestCount := requestCount w;
        events := ((if elapsed <? 100 then [Sleep (100 - elapsed)] else [])
                   ++ events w)%list |}).
Proof.
  unfold handleRateLimit, bind, dateNow, getLastRequestTime, setLastRequestTime, sleep, ret.
  simpl. destruct (clock w - lastRequestTime w <? 100); reflexivity.
Qed.

(** With a timeout that [AbortSignal.timeout] accepts, [request] is the
    gate followed by the retry loop under one signal, created when the
    gate is passed. *)
Lemma request_run config network resolveUrl endpoint options w :
  0 <= timeout (firefly config) ->
  request config network resolveUrl endpoint options w =
    executeWithRetry config network
      (requestUrl config resolveUrl endpoint options)
      (requestConfig options
         (clock (snd (handleRateLimit w)) + timeout (firefly config)))
      (snd (handleRateLimit w)).
Proof.
  intros Ht. unfold request, bind at 1. rewrite handleRateLimit_run.
  cbv zeta. cbn [snd]. unfold bind, AbortSignal_timeout.
  assert (H : (timeout (firefly config) <? 0) = false) by (apply Z.ltb_ge; exact Ht).
  rewrite H. reflexivity.
Qed.

(** With a negative timeout the call ends when the signal is to be
    created: after the gate, before any [fetch]. *)
Lemma request_refused config network resolveUrl endpoint options w :
  timeout (firefly config) < 0 ->
  request config network resolveUrl endpoint options w =
    (Throw SignalRangeError, snd (handleRateLimit w)).
Proof.
  intros Ht. unfold request, bind at 1. rewrite handleRateLimit_run.
  cbv zeta. cbn [snd]. unfold bind, AbortSignal_timeout.
  assert (H : (timeout (firefly config) <? 0) = true) by (apply Z.ltb_lt; exact Ht).
  rewrite H. reflexivity.
Qed.

(** What the retry loop preserves from any state, a call preserves from
    the state in which it passed the gate. *)
Lemma request_after_gate (R : State -> State -> Prop)
    config network resolveUrl endpoint options w :
  (forall s, R s s) ->
  (forall url init, respects R (executeWithRetry config network url init)) ->
  R (snd (handleRateLimit w))
    (snd (request config network resolveUrl endpoint options w)).
Proof.
  intros Hrefl Hloop.
  destruct (Z.lt_ge_cases (timeout (firefly config)) 0) as [Hneg | Ht].
  - rewrite request_refused by exact Hneg. apply Hrefl.
  - rewrite request_run by exact Ht. apply Hloop.
Qed.

(** ** One attempt *)

(** [attemptOnce] written out on the result of its [fetch]. *)
Lemma attemptOnce_run config network url init w :
  attemptOnce config network url init w =
    match fetch network url init (snd (logRequest config url init w)) with
    | (Throw e, w1) => (Throw e, w1)
    | (Ok response, w1) =>
        let w2 := snd (incrementRequestCount w1) in
        if ok response then
          match json response with
          | Some data => (Ok data, snd (logResponse config (status response) data w2))
          | None => (Throw JsonSyntaxError, w2)
          end
        else (Throw (classified response), w2)
    end.
Proof.
  unfold attemptOnce, bind at 1.
  destruct (logRequest config url init w) as [[[] | e0] w0] eqn:Hlog.
  2:{ unfold logRequest in Hlog.
      destruct (LogLevel_eqb (level (logging config)) debug); discriminate. }
  simpl snd. unfold bind at 1.
  destruct (fetch network url init w0) as [[response | e] w1]; [| reflexivity].
  unfold bind at 1. simpl.
  destruct (ok response); simpl.
  - unfold bind, responseJson. destruct (json response) as [data |]; simpl; [| reflexivity].
    unfold logResponse.
    destruct (LogLevel_eqb (level (logging config)) debug); reflexivity.
  - unfold classified, parseErrorResponse, bind.
    destruct (json response) as [[| b | n | s | items | fields] |]; simpl; try reflexivity.
Qed.

(** [logRequest] only writes to the console. *)
Lemma logRequest_run config url init w :
  exists pre,
    timeline pre = [] /\
    logRequest config url init w =
      (Ok tt, {| clock := clock w; fetches := fetches w;
                 lastRequestTime := lastRequestTime w;
                 requestCount := requestCount w;
                 events := (pre ++ events w)%list |}).
Proof.
  unfold logRequest.
  destruct (LogLevel_eqb (level (logging config)) debug).
  - exists [ConsoleDebug ("[FireflyAPI] " ++ methodName (method init) ++ " " ++ url)].
    split; reflexivity.
  - exists []. split; [reflexivity |]. destruct w; reflexivity.
Qed.

(** [logResponse] only writes to the console. *)
Lemma logResponse_run config st data w :
  exists post,
    timeline post = [] /\
    logResponse config st data w =
      (Ok tt, {| clock := clock w; fetches := fetches w;
                 lastRequestTime := lastRequestTime w;
                 requestCount := requestCount w;
                 events := (post ++ events w)%list |}).
Proof.
  unfold logResponse.
  destruct (LogLevel_eqb (level (logging config)) debug).
  - exists [ConsoleDebugData ("[FireflyAPI] Response " ++ Js.dec st ++ ":") data].
    split; reflexivity.
  - exists []. split; [reflexivity |]. destruct w; reflexivity.
Qed.

Lemma fetch_run network url init w :
  fetch network url init w =
    (fst (fetchResult network init (clock w) (fetches w)),
     {| clock := snd (fetchResult network init (clock w) (fetches w));
        fetches := S (fetches w);
        lastRequestTime := lastRequestTime w;
        requestCount := requestCount w;
        events := Dispatch (clock w) (signal init) url (method init) :: events w |}).
Proof.
  unfold fetch, fetchResult.
  destruct (signal init <=? clock w); [reflexivity |].
  destruct (network (fetches w)) as [d r | d reason |];
    try destruct (clock w + d <? signal init); reflexivity.
Qed.

(** A [fetch] resolves only with the reply of the network, and only when
    that reply arrives before the signal fires. *)
Lemma fetchResult_ok network init now n r t :
  fetchResult network init now n = (Ok r, t) ->
  exists latency,
    network n = Responds latency r /\ now < signal init /\
    now + latency < signal init /\ t = now + latency.
Proof.
  unfold fetchResult.
  destruct (signal init <=? now) eqn:Hs; [discriminate |].
  apply Z.leb_gt in Hs.
  destruct (network n) as [d r' | d reason |]; try discriminate.
  - destruct (now + d <? signal init) eqn:Hd; [| discriminate].
    apply Z.ltb_lt in Hd. intros H; inversion H; subst. exists d. auto.
  - destruct (now + d <? signal init); discriminate.
Qed.


(** What one attempt leaves behind, whatever its outcome. *)
Lemma attemptOnce_effects config network url init w :
  let w' := snd (attemptOnce config network url init w) in
  fetches w' = S (fetches w) /\
  lastRequestTime w' = lastRequestTime w /\
  requestCount w' =
    requestCount w +
    match fst (fetchResult network init (clock w) (fetches w)) with
    | Ok _ => 1
    | Throw _ => 0
    end /\
  exists pre post,
    timeline pre = [] /\ timeline post = [] /\
    events w' =
      (post ++ Dispatch (clock w) (signal init) url (method init) :: pre ++ events w)%list.
Proof.
  rewrite attemptOnce_run.
  destruct (logRequest_run config url init w) as [pre [Hpre Hlog]].
  rewrite Hlog. simpl snd. rewrite fetch_run. simpl.
  destruct (fetchResult network init (clock w) (fetches w)) as [[r | e] t]; simpl.
  - destruct (ok r).
    + destruct (json r) as [data |].
      * match goal with
        | |- context [logResponse ?c ?s ?d ?x] =>
            destruct (logResponse_run c s d x) as [post [Hpost Hresp]]; rewrite Hresp
        end.
        simpl. repeat split; try lia. exists pre, post. auto.
      * simpl. repeat split; try lia. exists pre, []. auto.
    + simpl. repeat split; try lia. exists pre, []. auto.
  - repeat split; try lia. exists pre, []. auto.
Qed.

(** The outcome of one attempt, from the result of its [fetch]. *)
Lemma attemptOnce_outcome config network url init w :
  fst (attemptOnce config network url init w) =
    match fst (fetchResult network init (clock w) (fetches w)) with
    | Throw e => Throw e
    | Ok r =>
        if ok r then
          match json r with
          | Some data => Ok data
          | None => Throw JsonSyntaxError
          end
        else Throw (classified r)
    end.
Proof.
  rewrite attemptOnce_run.
  destruct (logRequest_run config url init w) as [pre [Hpre Hlog]].
  rewrite Hlog. simpl snd. rewrite fetch_run. simpl.
  destruct (fetchResult network init (clock w) (fetches w)) as [[r | e] t]; simpl;
    [| reflexivity].
  destruct (ok r); [| reflexivity].
  destruct (json r); reflexivity.
Qed.

Lemma timeline_app a b : timeline (a ++ b) = (timeline a ++ timeline b)%list.
Proof.
  induction a as [| e a IH]; [reflexivity |].
  destruct e; simpl; rewrite ?IH; reflexivity.
Qed.

Lemma attemptOnce_timeline config network url init w :
  timeline (events (snd (attemptOnce config network url init w))) =
    Attempt :: timeline (events w).
Proof.
  destruct (attemptOnce_effects config network url init w)
    as (_ & _ & _ & pre & post & Hpre & Hpost & Hev).
  rewrite Hev, timeline_app. simpl. rewrite timeline_app, Hpre, Hpost. reflexivity.
Qed.

(** ** The retry loop *)

Lemma backoff_run config attempt w :
  backoff config attempt w =
    (Ok tt,
     if attempt <? retryAttempts (firefly config) then
       {| clock := clock w + Z.max 0 (backoffDelay config attempt);
          fetches := fetches w;
          lastRequestTime := lastRequestTime w;
          requestCount := requestCount w;
          events :=
            Sleep (backoffDelay config attempt)
            :: ConsoleWarn
                 ("Request failed (attempt " ++ Js.dec (attempt + 1) ++ "/"
                  ++ Js.dec (retryAttempts (firefly config) + 1)
                  ++ "), retrying in " ++ Js.dec (backoffDelay config attempt)
                  ++ "ms...")
            :: events w |}
     else w).
Proof.
  unfold backoff.
  destruct (attempt <? retryAttempts (firefly config)); reflexivity.
Qed.

(** One iteration of the loop, by the outcome of its attempt. *)
Lemma retryLoop_step config network fuel attempt lastError url init w :
  attempt <= retryAttempts (firefly config) ->
  retryLoop config network (S fuel) attempt lastError url init w =
    match attemptOnce config network url init w with
    | (Ok data, w1) => (Ok data, w1)
    | (Throw e, w1) =>
        if isClientError e then (Throw e, w1)
        else retryLoop config network fuel (attempt + 1) (Some e) url init
               (snd (backoff config attempt w1))
    end.
Proof.
  intros Hle. simpl. apply Z.leb_le in Hle. rewrite Hle.
  destruct (attemptOnce config network url init w) as [[data | e] w1]; [reflexivity |].
  destruct (isClientError e); [reflexivity |].
  unfold bind. rewrite backoff_run. reflexivity.
Qed.

(** Past the last attempt the loop is over. *)
Lemma retryLoop_over config network fuel attempt lastError url init w :
  retryAttempts (firefly config) < attempt ->
  retryLoop config network fuel attempt lastError url init w = exhausted lastError w.
Proof.
  intros Hlt. destruct fuel; [reflexivity |]. simpl.
  apply Z.leb_gt in Hlt. rewrite Hlt. reflexivity.
Qed.

(** The loop does not depend on the fuel once there is enough of it: it
    stops by its own test [attempt <= retryAttempts]. *)
Lemma retryLoop_fuel config network url init : forall fuel fuel' attempt lastError w,
  (Z.to_nat (retryAttempts (firefly config) + 1 - attempt) <= fuel)%nat ->
  (Z.to_nat (retryAttempts (firefly config) + 1 - attempt) <= fuel')%nat ->
  retryLoop config network fuel attempt lastError url init w =
  retryLoop config network fuel' attempt lastError url init w.
Proof.
  induction fuel as [| fuel IH]; intros fuel' attempt lastError w H1 H2.
  - rewrite (retryLoop_over config network fuel') by lia. reflexivity.
  - destruct (Z.le_gt_cases attempt (retryAttempts (firefly config))) as [Hle | Hgt].
    + destruct fuel' as [| fuel']; [lia |].
      rewrite !retryLoop_step by assumption.
      destruct (attemptOnce config network url init w) as [[data | e] w1]; [reflexivity |].
      destruct (isClientError e); [reflexivity |].
      apply IH; lia.
    + rewrite !retryLoop_over by lia. reflexivity.
Qed.

(** A non-client failure with attempts left: the loop waits and goes on. *)
Lemma retryLoop_retry config network fuel attempt lastError url init w e w1 :
  attempt <= retryAttempts (firefly config) ->
  attemptOnce config network url init w = (Throw e, w1) ->
  isClientError e = false ->
  retryLoop config network (S fuel) attempt lastError url init w =
    retryLoop config network fuel (attempt + 1) (Some e) url init
      (snd (backoff config attempt w1)).
Proof.
  intros Hle Hatt Hc. rewrite retryLoop_step by assumption.
  rewrite Hatt, Hc. reflexivity.
Qed.


(** A client error ends the call at once. *)
Lemma retryLoop_client_error config network fuel attempt lastError url init w e w1 :
  attempt <= retryAttempts (firefly config) ->
  attemptOnce config network url init w = (Throw e, w1) ->
  isClientError e = true ->
  retryLoop config network (S fuel) attempt lastError url init w = (Throw e, w1).
Proof.
  intros Hle Hatt Hc. rewrite retryLoop_step by assumption.
  rewrite Hatt, Hc. reflexivity.
Qed.








(** ** Client errors *)

(** The error built for a response that is not [ok] is an API error with
    the status of the response, unless the body decodes to [null]. *)
Lemma classified_api_error r :
  json r <> Some Js.Null ->
  exists message detail,
    classified r = FireflyApiError message (status r) (Some detail).
Proof.
  intros Hnull. unfold classified.
  destruct (json r) as [[| b | n | s | items | fields] |];
    try contradiction; eauto.
Qed.

(** A 4xx response whose body does not decode to [null] ends the call on
    the spot: one attempt, no wait, the counter one higher. *)
Lemma client_error_not_retried config network resolveUrl endpoint options w r :
  0 <= retryAttempts (firefly config) ->
  let gated := snd (handleRateLimit w) in
  let url := requestUrl config resolveUrl endpoint options in
  let init := requestConfig options (clock gated + timeout (firefly config)) in
  fst (fetch network url init gated) = Ok r ->
  400 <= status r < 500 ->
  json r <> Some Js.Null ->
  exists final message detail,
    request config network resolveUrl endpoint options w =
      (Throw (FireflyApiError message (status r) (Some detail)), final) /\
    classified r = FireflyApiError message (status r) (Some detail) /\
    fetches final = S (fetches w) /\
    requestCount final = requestCount w + 1 /\
    timeline (events final) = Attempt :: timeline (events gated).
Proof.
  intros HN gated url init Hfetch Hst Hnull.
  destruct (classified_api_error r Hnull) as (message & detail & Hcl).
  pose proof (attemptOnce_outcome config network url init gated) as Hout.
  pose proof (attemptOnce_effects config network url init gated) as Heff.
  pose proof (attemptOnce_timeline config network url init gated) as Htl.
  rewrite fetch_run in Hfetch. simpl in Hfetch.
  assert (Ht : 0 <= timeout (firefly config)).
  { unfold fetchResult in Hfetch.
    destruct (signal init <=? clock gated) eqn:Hs; [discriminate |].
    apply Z.leb_gt in Hs. subst init. cbn [signal requestConfig] in Hs. lia. }
  rewrite Hfetch in Hout, Heff.
  assert (Hok : ok r = false).
  { unfold ok. apply andb_false_iff. right. apply Z.leb_gt. lia. }
  rewrite Hok, Hcl in Hout.
  destruct (attemptOnce config network url init gated) as [o final] eqn:Hatt.
  simpl in Hout, Heff, Htl. subst o.
  destruct Heff as (Hf & _ & Hc & _).
  exists final, message, detail.
  rewrite request_run by exact Ht. unfold executeWithRetry.
  replace (Z.to_nat (retryAttempts (firefly config) + 1))
    with (S (Z.to_nat (retryAttempts (firefly config))))
    by (rewrite Z2Nat.inj_add by lia; simpl; lia).
  assert (Hg : fetches gated = fetches w /\ requestCount gated = requestCount w)
    by (subst gated; rewrite handleRateLimit_run; split; reflexivity).
  destruct Hg as [Hg1 Hg2].
  split; [| repeat split; try assumption; lia].
  apply retryLoop_client_error; [lia | exact Hatt |].
  simpl. apply andb_true_iff. split; [apply Z.leb_le | apply Z.ltb_lt]; lia.
Qed.

(** ** Claims *)

(** C3 (code defect).  A 4xx response is meant to end the call after one
    attempt, as the comment in the [catch] clause says.  When the body of
    the response is the JSON value [null], reading [errorData.message]
    throws a [TypeError] inside the [try] block; the [catch] clause does
    not see an API error and retries: here three attempts with waits of
    1000 and 2000 ms, the counter raised by three, and a plain error
    thrown instead of the API error of status 404. *)
Theorem client_error_with_null_body_is_retried :
  fst nullNotFoundRun = Throw (NullPropertyError "message") /\
  isFireflyApiError (NullPropertyError "message") = false /\
  fetches (snd nullNotFoundRun) = 3%nat /\
  requestCount (snd nullNotFoundRun) = requestCount (newClient 5000) + 3 /\
  rev (timeline (events (snd nullNotFoundRun))) =
    [Attempt; Wait 1000; Attempt; Wait 2000; Attempt].
Proof. vm_compute. repeat split. Qed.

(** C6 (code defect).  An error response whose body is not the error
    envelope is meant to be classified with the synthesized message.  A
    body that decodes to [null] makes the classification itself throw:
    the attempt ends with a [TypeError] that has no status and whose
    message is not the synthesized one. *)
Theorem null_error_body_fails_classification :
  ok nullServerError = false /\
  fst (parseErrorResponse nullServerError (newClient 5000)) = Ok Js.Null /\
  fst nullServerErrorAttempt = Throw (NullPropertyError "message") /\
  errorStatus (NullPropertyError "message") = None /\
  fst nullServerErrorAttempt <>
    Throw (FireflyApiError (httpMessage nullServerError) 500
             (Some (Js.Object [("message", Js.Str (httpMessage nullServerError))]))).
Proof. vm_compute. repeat split. discriminate. Qed.

(** Where the body is absent or not JSON the classification does degrade
    to the synthesized message and keeps the status. *)
Lemma undecodable_error_body_is_synthesized config network url init w r :
  fst (fetch network url init w) = Ok r ->
  ok r = false ->
  json r = None ->
  fst (parseErrorResponse r w) = Ok (Js.Object [("message", Js.Str (httpMessage r))]) /\
  fst (attemptOnce config network url init w) =
    Throw (FireflyApiError (httpMessage r) (status r)
             (Some (Js.Object [("message", Js.Str (httpMessage r))]))) /\
  httpMessage r = "HTTP " ++ Js.dec (status r) ++ ": " ++ statusText r.
Proof.
  intros Hfetch Hok Hjson.
  rewrite fetch_run in Hfetch. simpl in Hfetch.
  rewrite attemptOnce_outcome, Hfetch, Hok.
  unfold classified, parseErrorResponse. rewrite Hjson. auto.
Qed.




(** ** The deadline of a call *)

Lemma boundTo_silent d l : timeline l = [] -> Forall (boundTo d) l.
Proof.
  induction l as [| e l IH]; intros H; [constructor |].
  destruct e; simpl in H; try discriminate; constructor; simpl; auto.
Qed.

(** Every [fetch] of the retry loop is made under the signal it was
    given. *)
Lemma retryLoop_boundTo config network url init : forall fuel attempt lastError w,
  exists new,
    events (snd (retryLoop config network fuel attempt lastError url init w)) =
      (new ++ events w)%list /\
    Forall (boundTo (signal init)) new.
Proof.
  induction fuel as [| fuel IH]; intros attempt lastError w.
  - exists []. split; [destruct lastError; reflexivity | constructor].
  - destruct (Z.le_gt_cases attempt (retryAttempts (firefly config))) as [Hle | Hgt].
    2:{ rewrite retryLoop_over by lia. exists [].
        split; [destruct lastError; reflexivity | constructor]. }
    rewrite retryLoop_step by assumption.
    destruct (attemptOnce_effects config network url init w)
      as (_ & _ & _ & pre & post & Hpre & Hpost & Hev).
    assert (Hone : Forall (boundTo (signal init))
                     (post ++ Dispatch (clock w) (signal init) url (method init) :: pre)).
    { apply Forall_app. split; [apply boundTo_silent; assumption |].
      constructor; [reflexivity | apply boundTo_silent; assumption]. }
    destruct (attemptOnce config network url init w) as [[data | e] w1]; simpl in Hev.
    + eexists. split; [| exact Hone]. simpl. rewrite Hev, <- app_assoc. reflexivity.
    + destruct (isClientError e).
      * eexists. split; [| exact Hone]. simpl. rewrite Hev, <- app_assoc. reflexivity.
      * destruct (IH (attempt + 1) (Some e) (snd (backoff config attempt w1)))
          as (new & Hnew & Hall).
        rewrite Hnew, backoff_run.
        destruct (attempt <? retryAttempts (firefly config)); simpl; rewrite Hev.
        -- exists (new ++ Sleep (backoffDelay config attempt)
                     :: ConsoleWarn
                          ("Request failed (attempt " ++ Js.dec (attempt + 1) ++ "/"
                           ++ Js.dec (retryAttempts (firefly config) + 1)
                           ++ "), retrying in " ++ Js.dec (backoffDelay config attempt)
                           ++ "ms...")
                     :: post ++ Dispatch (clock w) (signal init) url (method init) :: pre)%list.
           split.
           ++ rewrite <- !app_assoc. simpl. rewrite <- !app_assoc. reflexivity.
           ++ apply Forall_app. split; [assumption |].
              constructor; [exact I |]. constructor; [exact I | exact Hone].
        -- exists (new ++ post ++ Dispatch (clock w) (signal init) url (method init) :: pre)%list.
           split; [rewrite <- !app_assoc; reflexivity |].
           apply Forall_app. split; assumption.
Qed.

Lemma fetchResult_expired network init w :
  expires network (signal init) w ->
  fst (fetchResult network init (clock w) (fetches w)) = Throw TimeoutError.
Proof.
  unfold expires, fetchResult. intros H.
  destruct (signal init <=? clock w) eqn:Hs; [reflexivity |].
  apply Z.leb_gt in Hs.
  destruct H as [H | [H | [(d & r & H & Hd) | (d & reason & H & Hd)]]];
    [lia | rewrite H; reflexivity | rewrite H | rewrite H];
    (destruct (clock w + d <? signal init) eqn:Hl;
     [apply Z.ltb_lt in Hl; lia | reflexivity]).
Qed.

(** The deadline of a call, in general.  One signal is created per call,
    when the rate-limit gate is passed, and every attempt of the call is
    made under it: the deadline of each [fetch] is that instant plus the
    configured timeout.  An attempt obtains a response only if the reply
    arrives before that deadline, so its time budget is what earlier
    attempts and waits of the call have left.  An attempt on which the
    signal fires throws the timeout error, which is not an API error and
    has no status, leaves the counter alone, and is retried like any
    network failure. *)
Lemma attempts_share_the_deadline_of_the_call
    config network resolveUrl endpoint options w :
  let gated := snd (handleRateLimit w) in
  let deadline := clock gated + timeout (firefly config) in
  let url := requestUrl config resolveUrl endpoint options in
  let init := requestConfig options deadline in
  (exists new,
      events (snd (request config network resolveUrl endpoint options w)) =
        (new ++ events gated)%list /\
      forall t d u m, In (Dispatch t d u m) new -> d = deadline) /\
  (forall w0 r,
      fst (fetch network url init w0) = Ok r ->
      exists latency,
        network (fetches w0) = Responds latency r /\ clock w0 + latency < deadline) /\
  (forall w0,
      expires network deadline w0 ->
      exists w1,
        attemptOnce config network url init w0 = (Throw TimeoutError, w1) /\
        requestCount w1 = requestCount w0 /\
        forall fuel attempt lastError,
          attempt <= retryAttempts (firefly config) ->
          retryLoop config network (S fuel) attempt lastError url init w0 =
            retryLoop config network fuel (attempt + 1) (Some TimeoutError) url init
              (snd (backoff config attempt w1))) /\
  isFireflyApiError TimeoutError = false /\
  errorStatus TimeoutError = None.
Proof.
  intros gated deadline url init.
  split; [| split; [| split; [| split; reflexivity]]].
  - destruct (Z.lt_ge_cases (timeout (firefly config)) 0) as [Hneg | Ht].
    { rewrite request_refused by exact Hneg. exists [].
      split; [reflexivity | intros t d u m []]. }
    rewrite request_run by exact Ht. unfold executeWithRetry.
    destruct (retryLoop_boundTo config network url init
                (Z.to_nat (retryAttempts (firefly config) + 1)) 0 None gated)
      as (new & Hnew & Hall).
    exists new. split; [exact Hnew |].
    intros t d u m Hin. rewrite Forall_forall in Hall.
    apply (Hall _ Hin).
  - intros w0 r Hfetch. rewrite fetch_run in Hfetch. simpl in Hfetch.
    destruct (fetchResult network init (clock w0) (fetches w0)) as [o t] eqn:Hf.
    simpl in Hfetch. subst o. apply fetchResult_ok in Hf.
    destruct Hf as (d & Hnet & _ & Hlt & _). exists d. split; assumption.
  - intros w0 Hexp.
    pose proof (fetchResult_expired network init w0 Hexp) as Hf.
    pose proof (attemptOnce_outcome config network url init w0) as Hout.
    pose proof (attemptOnce_effects config network url init w0) as Heff.
    rewrite Hf in Hout, Heff.
    destruct (attemptOnce config network url init w0) as [o w1] eqn:Hatt.
    simpl in Hout, Heff. subst o. destruct Heff as (_ & _ & Hc & _).
    exists w1. split; [reflexivity |]. split; [lia |].
    intros fuel attempt lastError Hle.
    apply (retryLoop_retry _ _ _ _ _ _ _ _ TimeoutError w1); auto.
Qed.

(** C2 (as the code has it).  The counter is raised right after [fetch]
    has resolved: an attempt adds one when a response was obtained,
    whatever its status and whether or not its body decodes, and nothing
    when [fetch] rejected. *)
Theorem counter_counts_obtained_responses config network url init w :
  requestCount (snd (attemptOnce config network url init w)) =
    requestCount w +
    match fst (fetch network url init w) with
    | Ok _ => 1
    | Throw _ => 0
    end.
Proof.
  rewrite fetch_run. simpl fst.
  apply (attemptOnce_effects config network url init w).
Qed.

(** C5.  The gate waits exactly [100 - elapsed] ms when less than 100 ms
    have elapsed since the last-request timestamp, a positive amount, and
    does not wait otherwise; it then sets the timestamp to the current
    time.  The retry loop that follows comes after the wait and leaves the
    timestamp as the gate set it. *)
Theorem rate_limit_gate_once_per_call config network resolveUrl endpoint options w :
  let elapsed := clock w - lastRequestTime w in
  let wait := if elapsed <? 100 then 100 - elapsed else 0 in
  let gated := snd (handleRateLimit w) in
  let final := snd (request config network resolveUrl endpoint options w) in
  (if elapsed <? 100 then wait = 100 - elapsed /\ 0 < wait else wait = 0) /\
  events gated =
    ((if elapsed <? 100 then [Sleep (100 - elapsed)] else []) ++ events w)%list /\
  clock gated = clock w + wait /\
  lastRequestTime gated = clock gated /\
  fetches gated = fetches w /\
  (exists new, events final = (new ++ events gated)%list) /\
  lastRequestTime final = lastRequestTime gated.
Proof.
  intros elapsed wait gated final.
  assert (Hext : extends gated final).
  { subst gated final. apply request_after_gate;
      [apply extends_refl | intros; apply executeWithRetry_extends]. }
  assert (Hts : timestampKept gated final).
  { subst gated final. apply request_after_gate;
      [apply timestampKept_refl | intros; apply executeWithRetry_timestamp]. }
  assert (Hg : gated =
               {| clock := if elapsed <? 100
                           then clock w + Z.max 0 (100 - elapsed) else clock w;
                  fetches := fetches w;
                  lastRequestTime := if elapsed <? 100
                                     then clock w + Z.max 0 (100 - elapsed) else clock w;
                  requestCount := requestCount w;
                  events := ((if elapsed <? 100 then [Sleep (100 - elapsed)] else [])
                             ++ events w)%list |})
    by (subst gated; rewrite handleRateLimit_run; reflexivity).
  split; [subst wait; destruct (elapsed <? 100) eqn:He;
          [apply Z.ltb_lt in He; lia | reflexivity] |].
  split; [rewrite Hg; reflexivity |].
  split; [rewrite Hg; cbn [clock]; subst wait; destruct (elapsed <? 100) eqn:He;
          [apply Z.ltb_lt in He |]; lia |].
  split; [rewrite Hg; reflexivity |].
  split; [rewrite Hg; reflexivity |].
  split; [exact Hext | exact Hts].
Qed.


(** C7.  The probe never throws: it returns [true] when its request
    returns and [false] when its request throws, after writing the error
    to the console. *)
Theorem probe_reports_a_boolean config network resolveUrl w :
  exists b final,
    testConnection config network resolveUrl w = (Ok b, final) /\
    match request config network resolveUrl "/api/v1/about" defaultOptions w with
    | (Ok _, w1) => b = true /\ final = w1
    | (Throw e, w1) =>
        b = false /\
        final = snd (emit (ConsoleError "API connection test failed:" e) w1) /\
        events final = ConsoleError "API connection test failed:" e :: events w1
    end.
Proof.
  unfold testConnection, tryCatch, bind.
  destruct (request config network resolveUrl "/api/v1/about" defaultOptions w)
    as [[data | e] w1].
  - exists true, w1. simpl. auto.
  - eexists false, _. simpl. split; [reflexivity |]. auto.
Qed.


(** ** The import loop *)

Lemma bind_emit {A} (e : Event) (k : unit -> M A) w :
  bind (emit e) k w = k tt (snd (emit e w)).
Proof. reflexivity. Qed.

Section ImporterFacts.

Variable createCategory : CreateCategoryRequest -> M Js.value.

(** One iteration, by the outcome of the creation. *)
Lemma importOne_run category counters w :
  importOne createCategory category counters w =
    match createCategory
            {| req_name := name category; req_notes := notes category |}
            (snd (emit (LoggerInfo ("📝 Creating: " ++ name category)) w)) with
    | (Ok _, w1) =>
        (Ok (fst counters + 1, snd counters),
         snd (sleep 100 (snd (emit (LoggerDebug ("✅ Created: " ++ name category)) w1))))
    | (Throw e, w1) =>
        (Ok (fst counters, snd counters + 1),
         snd (emit (LoggerError ("❌ Failed to create " ++ name category ++ ": "
                                 ++ errorMessage e)) w1))
    end.
Proof.
  unfold importOne, tryCatch, bind. simpl.
  destruct (createCategory _ _) as [[data | e] w1]; reflexivity.
Qed.

(** The loop never throws, and every item raises exactly one of the two
    counters by one. *)
Lemma importLoop_counts : forall categories counters w,
  exists created errors w',
    importLoop createCategory categories counters w = (Ok (created, errors), w') /\
    fst counters <= created /\
    snd counters <= errors /\
    created + errors = fst counters + snd counters + Z.of_nat (List.length categories).
Proof.
  induction categories as [| category rest IH]; intros [created errors] w.
  - exists created, errors, w. simpl. repeat split; lia.
  - cbn [importLoop]. unfold bind. rewrite importOne_run.
    destruct (createCategory _ _) as [[data | e] w1]; cbn [fst snd].
    + destruct (IH (created + 1, errors)
                  (snd (sleep 100
                          (snd (emit (LoggerDebug ("✅ Created: " ++ name category)) w1)))))
        as (c & er & w' & Hrun & Hc & He & Hsum).
      exists c, er, w'. cbn [fst snd] in *. split; [exact Hrun |].
      cbn [List.length]. lia.
    + destruct (IH (created, errors + 1)
                  (snd (emit (LoggerError ("❌ Failed to create " ++ name category ++ ": "
                                           ++ errorMessage e)) w1)))
        as (c & er & w' & Hrun & Hc & He & Hsum).
      exists c, er, w'. cbn [fst snd] in *. split; [exact Hrun |].
      cbn [List.length]. lia.
Qed.

End ImporterFacts.

(** C8.  Whatever each creation does, the import never throws; an item
    whose creation throws adds one to the error count and nothing to the
    created count, and the loop goes on with the remaining items; an item
    whose creation returns adds one to the created count; the two counts
    written in the summary add up to the number of items. *)
Theorem import_counts_every_item
    (createCategory : CreateCategoryRequest -> M Js.value) categories w :
  (forall category rest created errors w0,
      importLoop createCategory (category :: rest) (created, errors) w0 =
        match createCategory
                {| req_name := name category; req_notes := notes category |}
                (snd (emit (LoggerInfo ("📝 Creating: " ++ name category)) w0)) with
        | (Ok _, w1) =>
            importLoop createCategory rest (created + 1, errors)
              (snd (sleep 100
                      (snd (emit (LoggerDebug ("✅ Created: " ++ name category)) w1))))
        | (Throw e, w1) =>
            importLoop createCategory rest (created, errors + 1)
              (snd (emit (LoggerError ("❌ Failed to create " ++ name category ++ ": "
                                       ++ errorMessage e)) w1))
        end) /\
  exists created errors w' final,
    importLoop createCategory categories (0, 0)
      (snd (emit (LoggerInfo ("🚀 Starting import of "
                              ++ Js.dec (Z.of_nat (List.length categories))
                              ++ " categories...")) w)) =
      (Ok (created, errors), w') /\
    importCategories createCategory categories w = (Ok tt, final) /\
    0 <= created /\
    0 <= errors /\
    created + errors = Z.of_nat (List.length categories) /\
    events final =
      (if 0 <? errors
       then LoggerWarn "⚠️  Some categories could not be created. Check the logs above for details."
       else LoggerInfo "🎉 All categories imported successfully!")
      :: LoggerInfo ("  📋 Total: " ++ Js.dec (Z.of_nat (List.length categories)))
      :: LoggerInfo ("  ❌ Errors: " ++ Js.dec errors)
      :: LoggerInfo ("  ✅ Created: " ++ Js.dec created)
      :: LoggerInfo (newline ++ "📊 Import Summary:")
      :: events w'.
Proof.
  split.
  - intros category rest created errors w0.
    cbn [importLoop]. unfold bind at 1. rewrite importOne_run.
    destruct (createCategory _ _) as [[data | e] w1]; reflexivity.
  - destruct (importLoop_counts createCategory categories (0, 0)
                (snd (emit (LoggerInfo ("🚀 Starting import of "
                                        ++ Js.dec (Z.of_nat (List.length categories))
                                        ++ " categories...")) w)))
      as (created & errors & w' & Hrun & Hc & He & Hsum).
    cbn [fst snd] in Hc, He, Hsum.
    exists created, errors, w'.
    assert (Himp : importCategories createCategory categories w =
                   summary created errors (Z.of_nat (List.length categories)) w').
    { unfold importCategories. rewrite bind_emit. cbv beta.
      unfold bind at 1. rewrite Hrun. reflexivity. }
    rewrite Himp. unfold summary, bind, emit.
    destruct (0 <? errors); eexists; (split; [exact Hrun |]);
      (split; [reflexivity |]); repeat (split; [lia |]); reflexivity.
Qed.

(** ** Concrete runs *)

(** C1 (code defect).  Each attempt is meant to run under a deadline of
    its own, the configured timeout after its start, and the retry loop
    retries after a timeout as if that were so; but the signal is created
    once per call, before the loop, and passed to every [fetch].

    First run: timeout 1000 ms, one retry, base delay 100 ms; the server
    answers each request after 600 ms, first with 503, then with 200.  The
    second attempt starts 700 ms into the call under the deadline of the
    call, not under a deadline of its own: its reply, due after 600 ms, is
    cut off after 300 ms and the call throws the timeout error.

    Second run: timeout 1000 ms, two retries, base delay 100 ms; the
    server leaves the first request unanswered and answers every later one
    after 20 ms.  The first attempt is aborted at 6000.  The loop announces
    a retry, waits 100 ms and fetches at 6100 under the deadline 6000,
    then waits 200 ms and fetches at 6300: the fired signal rejects both
    although the server would have answered, no response is counted, and
    the call throws the timeout error. *)
Theorem second_attempt_runs_on_what_is_left_of_the_timeout :
  ~ Forall (fun e => ownDeadline 1000 e = true) (events (snd slowTransientRun)) /\
  In (Dispatch 5700 6000 aboutUrl GET) (events (snd slowTransientRun)) /\
  ownDeadline 1000 (Dispatch 5700 6000 aboutUrl GET) = false /\
  transientNetwork 600 1 =
    Responds 600 (respond 200 "OK" (Some (Js.Object [("data", Js.Array [])]))) /\
  600 < timeout (firefly (exampleConfig 1000 1 100)) /\
  fst slowTransientRun = Throw TimeoutError /\
  recoveringNetwork 1 =
    Responds 20 (respond 200 "OK" (Some (Js.Object [("data", Js.Array [])]))) /\
  recoveringNetwork 2 =
    Responds 20 (respond 200 "OK" (Some (Js.Object [("data", Js.Array [])]))) /\
  rev (timeline (events (snd recoveringRun))) =
    [Attempt; Wait 100; Attempt; Wait 200; Attempt] /\
  In (ConsoleWarn "Request failed (attempt 1/3), retrying in 100ms...")
    (events (snd recoveringRun)) /\
  In (Dispatch 6100 6000 aboutUrl GET) (events (snd recoveringRun)) /\
  In (Dispatch 6300 6000 aboutUrl GET) (events (snd recoveringRun)) /\
  requestCount (snd recoveringRun) = requestCount (newClient 5000) /\
  fst recoveringRun = Throw TimeoutError.
Proof.
  assert (Hin : In (Dispatch 5700 6000 aboutUrl GET) (events (snd slowTransientRun)))
    by (vm_compute; auto).
  split; [| split; [exact Hin | repeat split; vm_compute; auto 10]].
  intros Hall. rewrite Forall_forall in Hall.
  specialize (Hall _ Hin). vm_compute in Hall. discriminate.
Qed.

(** The second attempt of the first run above. *)
Lemma attempts_share_the_deadline_of_the_call_witness :
  expires (transientNetwork 600) 6000 secondAttempt /\
  exists w1,
    attemptOnce (exampleConfig 1000 1 100) (transientNetwork 600) aboutUrl
      (requestConfig defaultOptions 6000) secondAttempt =
      (Throw TimeoutError, w1) /\
    requestCount w1 = requestCount secondAttempt.
Proof.
  assert (Hexp : expires (transientNetwork 600) 6000 secondAttempt).
  { right. right. left.
    exists 600, (respond 200 "OK" (Some (Js.Object [("data", Js.Array [])]))).
    split; [reflexivity | simpl; lia]. }
  split; [exact Hexp |].
  destruct (attempts_share_the_deadline_of_the_call (exampleConfig 1000 1 100)
              (transientNetwork 600) exampleUrl "/api/v1/about" defaultOptions
              (newClient 5000))
    as (_ & _ & Hthird & _).
  destruct (Hthird secondAttempt Hexp) as (w1 & Hatt & Hcount & _).
  exists w1. split; [exact Hatt | exact Hcount].
Defined.

(** C2 (counterexample).  Two retries against a host that refuses the
    connection: three attempts are made and the counter has not moved. *)
Lemma refused_connections_are_not_counted :
  fetches (snd refusedRun) = (fetches (newClient 5000) + 3)%nat /\
  requestCount (snd refusedRun) = requestCount (newClient 5000) /\
  requestCount (snd refusedRun) <> requestCount (newClient 5000) + 3.
Proof. vm_compute. repeat split. discriminate. Qed.





(** The import of three items of which the second is refused as a
    duplicate with status 422: the refusal is not retried, it is counted
    once, and the third item is still created. *)
Example import_with_one_duplicate :
  fst duplicateImport = Ok tt /\
  fetches (snd duplicateImport) = 3%nat /\
  In (LoggerInfo "  ✅ Created: 2") (events (snd duplicateImport)) /\
  In (LoggerInfo "  ❌ Errors: 1") (events (snd duplicateImport)) /\
  In (LoggerError "❌ Failed to create Groceries: The name has already been taken.")
    (events (snd duplicateImport)).
Proof. vm_compute. repeat split; auto 20. Qed.

(** * Further properties of the engine *)







(** The loop makes at most [fuel] fetches and raises the counter by at
    most the number of fetches it makes. *)
Lemma retryLoop_bounds config network url init : forall fuel attempt lastError w,
  let w' := snd (retryLoop config network fuel attempt lastError url init w) in
  (fetches w <= fetches w')%nat /\
  (fetches w' <= fetches w + fuel)%nat /\
  requestCount w <= requestCount w' /\
  requestCount w' <= requestCount w + Z.of_nat (fetches w' - fetches w).
Proof.
  induction fuel as [| fuel IH]; intros attempt lastError w; cbv zeta.
  - simpl. destruct lastError; simpl; repeat split; lia.
  - destruct (Z.le_gt_cases attempt (retryAttempts (firefly config))) as [Hle | Hgt].
    2:{ rewrite retryLoop_over by lia. destruct lastError; simpl; repeat split; lia. }
    rewrite retryLoop_step by assumption.
    destruct (attemptOnce_effects config network url init w) as (Hfet & _ & Hc & _).
    assert (Hone : requestCount w
                   <= requestCount (snd (attemptOnce config network url init w))
                   <= requestCount w + 1).
    { rewrite Hc.
      destruct (fst (fetchResult network init (clock w) (fetches w))); lia. }
    clear Hc.
    destruct (attemptOnce config network url init w) as [[data | e] w1];
      simpl in Hfet, Hone.
    + simpl. repeat split; lia.
    + destruct (isClientError e); [simpl; repeat split; lia |].
      specialize (IH (attempt + 1) (Some e) (snd (backoff config attempt w1))).
      cbv zeta in IH.
      assert (Hb : fetches (snd (backoff config attempt w1)) = fetches w1 /\
                   requestCount (snd (backoff config attempt w1)) = requestCount w1).
      { rewrite backoff_run.
        destruct (attempt <? retryAttempts (firefly config)); split; reflexivity. }
      destruct Hb as [Hb1 Hb2]. rewrite Hb1, Hb2 in IH.
      destruct IH as (I1 & I2 & I3 & I4).
      repeat split; lia.
Qed.





(** X4.  Successive calls through one client pass the rate-limit gate at
    least 100 ms apart: a request, and so a probe, leaves the last-request
    timestamp at least 100 ms above its previous value. *)
Theorem gate_passes_are_100ms_apart config network resolveUrl endpoint options w :
  lastRequestTime w + 100 <=
    lastRequestTime (snd (request config network resolveUrl endpoint options w)) /\
  lastRequestTime w + 100 <=
    lastRequestTime (snd (testConnection config network resolveUrl w)).
Proof.
  assert (Hreq : forall endpoint' options',
             lastRequestTime w + 100 <=
             lastRequestTime
               (snd (request config network resolveUrl endpoint' options' w))).
  { intros endpoint' options'.
    rewrite (request_after_gate timestampKept config network resolveUrl endpoint' options' w
               timestampKept_refl
               (fun url init => executeWithRetry_timestamp config network url init)).
    rewrite handleRateLimit_run. cbv zeta. cbn [snd lastRequestTime].
    destruct (clock w - lastRequestTime w <? 100) eqn:He;
      [apply Z.ltb_lt in He | apply Z.ltb_ge in He]; lia. }
  split; [apply Hreq |].
  specialize (Hreq "/api/v1/about" defaultOptions).
  unfold testConnection, tryCatch, bind.
  destruct (request config network resolveUrl "/api/v1/about" defaultOptions w)
    as [[data | e] w1]; simpl in *; exact Hreq.
Qed.

Lemma sendsOnly_silent url init l : timeline l = [] -> Forall (sendsOnly url init) l.
Proof.
  induction l as [| e l IH]; intros H; [constructor |].
  destruct e; simpl in H; try discriminate; constructor; simpl; auto.
Qed.

(** Every [fetch] of the retry loop is made with the url and the
    configuration the loop was given. *)
Lemma retryLoop_sendsOnly config network url init : forall fuel attempt lastError w,
  exists new,
    events (snd (retryLoop config network fuel attempt lastError url init w)) =
      (new ++ events w)%list /\
    Forall (sendsOnly url init) new.
Proof.
  induction fuel as [| fuel IH]; intros attempt lastError w.
  - exists []. split; [destruct lastError; reflexivity | constructor].
  - destruct (Z.le_gt_cases attempt (retryAttempts (firefly config))) as [Hle | Hgt].
    2:{ rewrite retryLoop_over by lia. exists [].
        split; [destruct lastError; reflexivity | constructor]. }
    rewrite retryLoop_step by assumption.
    destruct (attemptOnce_effects config network url init w)
      as (_ & _ & _ & pre & post & Hpre & Hpost & Hev).
    assert (Hone : Forall (sendsOnly url init)
                     (post ++ Dispatch (clock w) (signal init) url (method init) :: pre)).
    { apply Forall_app. split; [apply sendsOnly_silent; assumption |].
      constructor; [simpl; auto | apply sendsOnly_silent; assumption]. }
    destruct (attemptOnce config network url init w) as [[data | e] w1]; simpl in Hev.
    + eexists. split; [| exact Hone]. simpl. rewrite Hev, <- app_assoc. reflexivity.
    + destruct (isClientError e).
      * eexists. split; [| exact Hone]. simpl. rewrite Hev, <- app_assoc. reflexivity.
      * destruct (IH (attempt + 1) (Some e) (snd (backoff config attempt w1)))
          as (new & Hnew & Hall).
        assert (Hbk : exists waited,
                   events (snd (backoff config attempt w1)) = (waited ++ events w1)%list /\
                   Forall (sendsOnly url init) waited).
        { rewrite backoff_run.
          destruct (attempt <? retryAttempts (firefly config)).
          - eexists [_; _]. split; [reflexivity |].
            constructor; [exact I |]. constructor; [exact I | constructor].
          - exists []. split; [reflexivity | constructor]. }
        destruct Hbk as (waited & Hw & Hwall).
        exists (new ++ waited
                ++ post ++ Dispatch (clock w) (signal init) url (method init) :: pre)%list.
        split.
        -- rewrite Hnew, Hw, Hev, <- !app_assoc. reflexivity.
        -- apply Forall_app. split; [assumption |].
           apply Forall_app. split; assumption.
Qed.

(** X5.  Every attempt of a call sends the same request: the same URL,
    the method of the options ([GET] when none is given) and the one
    deadline of the call.  The request carries a body only when one was
    given and the method is [POST], [PUT] or [PATCH]. *)
Theorem attempts_resend_the_same_request config network resolveUrl endpoint options w :
  let gated := snd (handleRateLimit w) in
  let final := snd (request config network resolveUrl endpoint options w) in
  let m := match opt_method options with Some m => m | None => GET end in
  (exists new,
      events final = (new ++ events gated)%list /\
      forall t d u m', In (Dispatch t d u m') new ->
        d = clock gated + timeout (firefly config) /\
        u = requestUrl config resolveUrl endpoint options /\
        m' = m) /\
  (forall created b,
      body (requestConfig options created) = Some b ->
      opt_body options = Some b /\ (m = POST \/ m = PUT \/ m = PATCH)).
Proof.
  intros gated final m. split.
  - subst final.
    destruct (Z.lt_ge_cases (timeout (firefly config)) 0) as [Hneg | Ht].
    { rewrite request_refused by exact Hneg. exists [].
      split; [reflexivity | intros t d u m' []]. }
    rewrite request_run by exact Ht. fold gated. unfold executeWithRetry.
    destruct (retryLoop_sendsOnly config network
                (requestUrl config resolveUrl endpoint options)
                (requestConfig options (clock gated + timeout (firefly config)))
                (Z.to_nat (retryAttempts (firefly config) + 1)) 0 None gated)
      as (new & Hnew & Hall).
    exists new. split; [exact Hnew |].
    intros t d u m' Hin. rewrite Forall_forall in Hall.
    apply (Hall _ Hin).
  - intros created b. unfold requestConfig. cbn [body]. fold m.
    destruct (opt_body options) as [b' |]; [| discriminate].
    destruct m; simpl; intros H; inversion H; auto.
Qed.

(** X6.  An error response whose body decodes to an object is classified
    with that object as detail and the status of the response; its message
    is the [message] of the object when that is a non-empty string, and
    the synthesized "HTTP <status>: <statusText>" when the object has no
    [message] or an empty one.  A body that decodes to a string, a number,
    a boolean or an array gives the synthesized message with the decoded
    value as detail. *)
Theorem server_message_is_used_when_present config network url init w r :
  fst (fetch network url init w) = Ok r ->
  ok r = false ->
  (forall fields m,
      json r = Some (Js.Object fields) ->
      Js.lookup "message" fields = Some (Js.Str m) ->
      m <> "" ->
      fst (attemptOnce config network url init w) =
        Throw (FireflyApiError m (status r) (Some (Js.Object fields)))) /\
  (forall fields,
      json r = Some (Js.Object fields) ->
      Js.lookup "message" fields = None \/
      Js.lookup "message" fields = Some (Js.Str "") ->
      fst (attemptOnce config network url init w) =
        Throw (FireflyApiError (httpMessage r) (status r) (Some (Js.Object fields)))) /\
  (forall v,
      json r = Some v ->
      match v with Js.Null | Js.Object _ => False | _ => True end ->
      fst (attemptOnce config network url init w) =
        Throw (FireflyApiError (httpMessage r) (status r) (Some v))).
Proof.
  intros Hfetch Hok.
  rewrite fetch_run in Hfetch. simpl in Hfetch.
  rewrite attemptOnce_outcome, Hfetch, Hok. unfold classified.
  split; [| split].
  - intros fields m Hjson Hlook Hm. rewrite Hjson, Hlook. unfold orElse. simpl.
    destruct (String.eqb m "") eqn:He; [apply String.eqb_eq in He; contradiction |].
    reflexivity.
  - intros fields Hjson [Hlook | Hlook]; rewrite Hjson, Hlook; reflexivity.
  - intros v Hjson Hv. rewrite Hjson. destruct v; try contradiction; reflexivity.
Qed.




(** The trace lines of one attempt: with the debug level one request
    line, and one response line if the attempt returns; none otherwise. *)
Lemma attemptOnce_traces config network url init w :
  let isDebug := LogLevel_eqb (level (logging config)) debug in
  exists new,
    events (snd (attemptOnce config network url init w)) = (new ++ events w)%list /\
    List.length (filter isRequestTrace new) = (if isDebug then 1 else 0)%nat /\
    List.length (filter isResponseTrace new) =
      (match fst (attemptOnce config network url init w) with
       | Ok _ => if isDebug then 1 else 0
       | Throw _ => 0
       end)%nat.
Proof.
  cbv zeta. rewrite attemptOnce_run. unfold logRequest, logResponse.
  destruct (LogLevel_eqb (level (logging config)) debug); cbn [snd emit ret];
    rewrite fetch_run; cbn [events];
    destruct (fst (fetchResult network init _ _)) as [r | e];
    try (eexists [_; _]; repeat split; reflexivity);
    try (eexists [_]; repeat split; reflexivity);
    cbv zeta; destruct (ok r);
    try (eexists [_; _]; repeat split; reflexivity);
    try (eexists [_]; repeat split; reflexivity);
    destruct (json r);
    try (eexists [_; _; _]; repeat split; reflexivity);
    try (eexists [_; _]; repeat split; reflexivity);
    try (eexists [_]; repeat split; reflexivity).
Qed.

Lemma filter_length_app {A} (f : A -> bool) (a b : list A) :
  List.length (filter f (a ++ b)) =
    (List.length (filter f a) + List.length (filter f b))%nat.
Proof. rewrite filter_app, length_app. reflexivity. Qed.

Lemma retryLoop_traces config network url init : forall fuel attempt lastError w,
  let isDebug := LogLevel_eqb (level (logging config)) debug in
  let run := retryLoop config network fuel attempt lastError url init w in
  exists new,
    events (snd run) = (new ++ events w)%list /\
    List.length (filter isRequestTrace new) =
      (if isDebug then fetches (snd run) - fetches w else 0)%nat /\
    List.length (filter isResponseTrace new) =
      (match fst run with
       | Ok _ => if isDebug then 1 else 0
       | Throw _ => 0
       end)%nat.
Proof.
  induction fuel as [| fuel IH]; intros attempt lastError w; cbv zeta.
  - exists []. simpl. destruct lastError; simpl;
      destruct (LogLevel_eqb (level (logging config)) debug);
      repeat split; try reflexivity; lia.
  - destruct (Z.le_gt_cases attempt (retryAttempts (firefly config))) as [Hle | Hgt].
    2:{ rewrite retryLoop_over by lia. exists [].
        destruct lastError; simpl;
          destruct (LogLevel_eqb (level (logging config)) debug);
          repeat split; try reflexivity; lia. }
    rewrite retryLoop_step by assumption.
    destruct (attemptOnce_traces config network url init w) as (one & Hev & Hreq & Hresp).
    destruct (attemptOnce_effects config network url init w) as (Hfet & _).
    destruct (attemptOnce config network url init w) as [[data | e] w1];
      cbn [fst snd] in Hev, Hreq, Hresp, Hfet.
    + exists one. cbn [fst snd]. split; [exact Hev |].
      split; [| exact Hresp].
      rewrite Hreq, Hfet.
      destruct (LogLevel_eqb (level (logging config)) debug); lia.
    + destruct (isClientError e).
      * exists one. cbn [fst snd]. split; [exact Hev |].
        split; [| exact Hresp].
        rewrite Hreq, Hfet.
        destruct (LogLevel_eqb (level (logging config)) debug); lia.
      * specialize (IH (attempt + 1) (Some e) (snd (backoff config attempt w1))).
        cbv zeta in IH. destruct IH as (more & Hmore & Hmreq & Hmresp).
        pose proof (retryLoop_bounds config network url init fuel (attempt + 1) (Some e)
                      (snd (backoff config attempt w1))) as Hb.
        cbv zeta in Hb. destruct Hb as (Hb1 & _).
        assert (Hbk : exists waited,
                   events (snd (backoff config attempt w1)) = (waited ++ events w1)%list /\
                   filter isRequestTrace waited = [] /\
                   filter isResponseTrace waited = [] /\
                   fetches (snd (backoff config attempt w1)) = fetches w1).
        { rewrite backoff_run.
          destruct (attempt <? retryAttempts (firefly config)).
          - eexists [_; _]. repeat split; reflexivity.
          - exists []. repeat split; reflexivity. }
        destruct Hbk as (waited & Hw & Hw1 & Hw2 & Hwf).
        exists (more ++ waited ++ one)%list.
        split; [rewrite Hmore, Hw, Hev, <- !app_assoc; reflexivity |].
        rewrite !filter_length_app, Hw1, Hw2, Hmreq, Hmresp, Hreq, Hresp.
        rewrite Hwf in *. cbn [List.length].
        split; [destruct (LogLevel_eqb (level (logging config)) debug); lia |].
        destruct (fst (retryLoop config network fuel (attempt + 1) (Some e) url init
                         (snd (backoff config attempt w1))));
          destruct (LogLevel_eqb (level (logging config)) debug); lia.
Qed.

(** X18.  With the debug level a call writes one request trace line per
    fetch and, when it returns, one response trace line; with any other
    level it writes no trace line at all. *)
Theorem trace_lines_follow_the_debug_level
    config network resolveUrl endpoint options w :
  let isDebug := LogLevel_eqb (level (logging config)) debug in
  let run := request config network resolveUrl endpoint options w in
  exists new,
    events (snd run) = (new ++ events (snd (handleRateLimit w)))%list /\
    List.length (filter isRequestTrace new) =
      (if isDebug then fetches (snd run) - fetches w else 0)%nat /\
    List.length (filter isResponseTrace new) =
      (match fst run with
       | Ok _ => if isDebug then 1 else 0
       | Throw _ => 0
       end)%nat.
Proof.
  cbv zeta.
  destruct (Z.lt_ge_cases (timeout (firefly config)) 0) as [Hneg | Ht].
  { rewrite request_refused by exact Hneg. exists []. cbn [fst snd].
    replace (fetches (snd (handleRateLimit w))) with (fetches w)
      by (rewrite handleRateLimit_run; reflexivity).
    rewrite Nat.sub_diag.
    destruct (LogLevel_eqb (level (logging config)) debug); repeat split. }
  rewrite request_run by exact Ht. unfold executeWithRetry.
  destruct (retryLoop_traces config network
              (requestUrl config resolveUrl endpoint options)
              (requestConfig options
           (clock (snd (handleRateLimit w)) + timeout (firefly config)))
              (Z.to_nat (retryAttempts (firefly config) + 1)) 0 None
              (snd (handleRateLimit w)))
    as (new & Hev & Hreq & Hresp).
  exists new. split; [exact Hev |]. split; [| exact Hresp].
  rewrite Hreq.
  replace (fetches (snd (handleRateLimit w))) with (fetches w)
    by (rewrite handleRateLimit_run; reflexivity).
  reflexivity.
Qed.

(** * The file steps of the importer *)

Lemma scanLoop_paths pathExists : forall fileNames,
  map CategoryFile.path (scanLoop pathExists fileNames) =
    filter pathExists (map categoryPath fileNames).
Proof.
  induction fileNames as [| fileName rest IH]; [reflexivity |].
  simpl. destruct (pathExists (categoryPath fileName)); simpl; rewrite IH; reflexivity.
Qed.

Lemma scanLoop_members pathExists : forall fileNames file,
  In file (scanLoop pathExists fileNames) ->
  exists fileName,
    In fileName fileNames /\
    pathExists (categoryPath fileName) = true /\
    CategoryFile.path file = categoryPath fileName /\
    CategoryFile.name file = replaceFirst ".json" "" fileName.
Proof.
  induction fileNames as [| fileName rest IH]; intros file Hin; [contradiction |].
  simpl in Hin. destruct (pathExists (categoryPath fileName)) eqn:He.
  - destruct Hin as [Heq | Hin].
    + subst file. exists fileName. simpl. auto.
    + destruct (IH file Hin) as (n & Hn & H). exists n. simpl. auto.
  - destruct (IH file Hin) as (n & Hn & H). exists n. simpl. auto.
Qed.

(** X8.  The scan throws when the categories directory is missing.
    Otherwise it returns the known files that exist, in the fixed order
    pt-br, en, fr, es, at most four of them, each with the path
    "./data/categories/<name>.json" for its name. *)
Theorem scan_lists_the_known_files_that_exist pathExists w :
  (pathExists categoriesDir = false ->
   scanCategoryFiles pathExists w =
     (Throw (PlainError "Error" "Categories directory not found: ./data/categories"), w)) /\
  (pathExists categoriesDir = true ->
   exists files,
     scanCategoryFiles pathExists w = (Ok files, w) /\
     map CategoryFile.path files = filter pathExists (map categoryPath knownFiles) /\
     (List.length files <= 4)%nat /\
     forall file, In file files ->
       pathExists (CategoryFile.path file) = true /\
       CategoryFile.path file =
         categoriesDir ++ "/" ++ CategoryFile.name file ++ ".json").
Proof.
  unfold scanCategoryFiles. split; intros Hdir; rewrite Hdir; [reflexivity |].
  exists (scanLoop pathExists knownFiles). split; [reflexivity |].
  split; [apply scanLoop_paths |].
  split.
  - rewrite <- (length_map CategoryFile.path), scanLoop_paths.
    etransitivity; [apply filter_length_le |]. simpl. lia.
  - intros file Hin.
    destruct (scanLoop_members pathExists knownFiles file Hin)
      as (fileName & Hn & He & Hp & Hname).
    rewrite Hp, Hname. split; [exact He |].
    simpl in Hn.
    destruct Hn as [H | [H | [H | [H | []]]]]; subst fileName; reflexivity.
Qed.

Lemma listFiles_run : forall files index w,
  exists w',
    listFiles index files w = (Ok tt, w') /\
    clock w' = clock w /\ fetches w' = fetches w /\
    lastRequestTime w' = lastRequestTime w /\ requestCount w' = requestCount w.
Proof.
  induction files as [| file rest IH]; intros index w.
  - exists w. simpl. auto.
  - cbn [listFiles]. rewrite bind_emit.
    destruct (IH (index + 1) (snd (emit (LoggerDebug
                ("  " ++ Js.dec (index + 1) ++ ". " ++ CategoryFile.name file)) w)))
      as (w' & Hrun & H1 & H2 & H3 & H4).
    exists w'. split; [exact Hrun |]. simpl in *. auto.
Qed.

Lemma selectCategoryFile_head file rest w :
  exists w',
    selectCategoryFile (file :: rest) w = (Ok file, w') /\
    clock w' = clock w /\ fetches w' = fetches w /\
    lastRequestTime w' = lastRequestTime w /\ requestCount w' = requestCount w.
Proof.
  destruct rest as [| second rest].
  - eexists. simpl. rewrite bind_emit. split; [reflexivity |]. simpl. auto.
  - cbn [selectCategoryFile]. rewrite bind_emit. cbv beta. unfold bind at 1.
    match goal with
    | |- context [listFiles 0 ?fs ?s] =>
        destruct (listFiles_run fs 0 s) as (w1 & Hrun & H1 & H2 & H3 & H4)
    end.
    rewrite Hrun. rewrite !bind_emit. cbv beta.
    eexists. split; [reflexivity |]. simpl in *. auto.
Qed.

(** X9.  The selection throws on an empty list and returns the first
    file of any other list, whatever the list holds after it; it only
    writes to the logger.  After a scan this is the first known file that
    exists: pt-br whenever it is there. *)
Theorem selection_is_the_first_file pathExists files w :
  (files = [] ->
   selectCategoryFile files w =
     (Throw (PlainError "Error" "No category files found in ./data/categories"), w)) /\
  (forall file rest,
      files = file :: rest ->
      exists w',
        selectCategoryFile files w = (Ok file, w') /\
        clock w' = clock w /\ fetches w' = fetches w /\
        lastRequestTime w' = lastRequestTime w /\ requestCount w' = requestCount w) /\
  (pathExists categoriesDir = true ->
   pathExists (categoryPath "categories-pt-br.json") = true ->
   fst (bind (scanCategoryFiles pathExists) selectCategoryFile w) =
     Ok {| CategoryFile.path := "./data/categories/categories-pt-br.json";
           CategoryFile.name := "categories-pt-br" |}) /\
  (pathExists categoriesDir = true ->
   filter pathExists (map categoryPath knownFiles) = [] ->
   fst (bind (scanCategoryFiles pathExists) selectCategoryFile w) =
     Throw (PlainError "Error" "No category files found in ./data/categories")).
Proof.
  split; [| split; [| split]].
  - intros H. subst files. reflexivity.
  - intros file rest H. subst files. apply selectCategoryFile_head.
  - intros Hdir Hpt. unfold bind, scanCategoryFiles. rewrite Hdir. cbn [negb].
    unfold ret. cbv beta iota.
    change (scanLoop pathExists knownFiles)
      with (if pathExists (categoryPath "categories-pt-br.json")
            then {| CategoryFile.path := categoryPath "categories-pt-br.json";
                    CategoryFile.name := replaceFirst ".json" "" "categories-pt-br.json" |}
                 :: scanLoop pathExists (tl knownFiles)
            else scanLoop pathExists (tl knownFiles)).
    rewrite Hpt. cbv beta iota.
    match goal with
    | |- context [selectCategoryFile (?f :: ?r) w] =>
        destruct (selectCategoryFile_head f r w) as (w' & Hrun & _)
    end.
    rewrite Hrun. reflexivity.
  - intros Hdir Hnone. unfold bind, scanCategoryFiles. rewrite Hdir. cbn [negb].
    unfold ret. cbv beta iota.
    pose proof (scanLoop_paths pathExists knownFiles) as Hp.
    rewrite Hnone in Hp.
    destruct (scanLoop pathExists knownFiles); [reflexivity | discriminate].
Qed.

Lemma validateCategories_ok : forall categories,
  validateCategories categories = Ok tt <-> forallb namedCategory categories = true.
Proof.
  induction categories as [| category rest IH]; [simpl; tauto |].
  simpl. unfold namedCategory at 1.
  destruct category as [| b | n | s | items | fields]; simpl;
    try (split; intros H; discriminate).
  destruct (Js.lookup "name" fields) as [[| b | n | s | items | fields'] |]; simpl;
    rewrite ?orb_true_r;
    try (split; intros H; discriminate).
  destruct (String.eqb s ""); simpl; [split; intros H; discriminate | exact IH].
Qed.

(** X10.  Loading a category file returns the parsed array, unchanged,
    exactly when the file can be read, its text parses to an array, and
    every element is an object whose [name] is a non-empty string; the
    empty array is accepted.  Every failure, whether of the read, of the
    parse or of the validation, is thrown as one [Error] whose message is
    "Failed to load categories from <path>: " followed by the message of
    the cause. *)
Theorem category_file_is_validated
    (readTextFile : string -> Outcome string)
    (JSON_parse : string -> Outcome Js.value) filePath :
  (forall categories,
      loadCategoriesFromFile readTextFile JSON_parse filePath = Ok categories <->
      exists content,
        readTextFile filePath = Ok content /\
        JSON_parse content = Ok (Js.Array categories) /\
        forallb namedCategory categories = true) /\
  (forall e,
      loadCategoriesFromFile readTextFile JSON_parse filePath = Throw e ->
      exists cause,
        readCategories readTextFile JSON_parse filePath = Throw cause /\
        e = PlainError "Error"
              ("Failed to load categories from " ++ filePath ++ ": "
               ++ errorMessage cause)).
Proof.
  unfold loadCategoriesFromFile, readCategories. split.
  - intros categories. split.
    + intros H.
      destruct (readTextFile filePath) as [content | e0]; [| discriminate].
      exists content. split; [reflexivity |].
      destruct (JSON_parse content) as [[| b | n | s | items | fields] | e0];
        try discriminate.
      destruct (validateCategories items) as [[] | e1] eqn:Hv; [| discriminate].
      inversion H; subst. split; [reflexivity |].
      apply validateCategories_ok. exact Hv.
    + intros (content & Hread & Hparse & Hvalid).
      rewrite Hread, Hparse.
      apply validateCategories_ok in Hvalid. rewrite Hvalid. reflexivity.
  - intros e H.
    destruct (readTextFile filePath) as [content | e0].
    + destruct (JSON_parse content) as [[| b | n | s | items | fields] | e0];
        try (inversion H; eexists; split; reflexivity).
      destruct (validateCategories items) as [[] | e1]; [discriminate |].
      inversion H. eexists. split; reflexivity.
    + inversion H. eexists. split; reflexivity.
Qed.

(** * The configuration manager *)

Lemma numberOr_nonzero a rest : rest <> 0 -> numberOr a rest <> 0.
Proof.
  intros H. unfold numberOr. destruct a as [n |]; [| exact H].
  destruct (n =? 0) eqn:He; [exact H | apply Z.eqb_neq; exact He].
Qed.

Lemma numberSetting_nonzero parseInt envValue literal fileValue fallback :
  fallback <> 0 -> numberSetting parseInt envValue literal fileValue fallback <> 0.
Proof.
  intros H. unfold numberSetting. apply numberOr_nonzero, numberOr_nonzero, H.
Qed.

(** What [loadConfig] does on a manager without cached configuration. *)
Lemma loadConfig_fresh parseInt validUrl jsLength env file manager :
  cached manager = None ->
  loadConfig parseInt validUrl jsLength env file manager =
    let config :=
      buildConfig parseInt env
        (match file with Ok parsed => parsed | Throw _ => emptyFileConfig end) in
    let warned :=
      match file with
      | Ok _ => warnings manager
      | Throw e =>
          ("Could not load config/config.json, using environment variables only: "
           ++ errorMessage e) :: warnings manager
      end in
    match validateConfig validUrl jsLength config with
    | Throw e => (Throw e, {| cached := None; warnings := warned |})
    | Ok _ => (Ok config, {| cached := Some config; warnings := warned |})
    end.
Proof. intros H. unfold loadConfig. rewrite H. reflexivity. Qed.

(** X11.  A configuration loaded by a manager that has none cached never
    has a zero timeout, retry count, retry delay or cache lifetime: a
    value that is zero or does not parse falls through to the next source
    and in the end to the built-in default. *)
Theorem loaded_numbers_are_never_zero
    parseInt validUrl jsLength env file manager config manager' :
  cached manager = None ->
  loadConfig parseInt validUrl jsLength env file manager = (Ok config, manager') ->
  timeout (loaded_firefly config) <> 0 /\
  retryAttempts (loaded_firefly config) <> 0 /\
  retryDelay (loaded_firefly config) <> 0 /\
  loaded_cacheTtl config <> 0.
Proof.
  intros Hfresh Hload. rewrite loadConfig_fresh in Hload by assumption.
  cbv zeta in Hload.
  destruct (validateConfig validUrl jsLength _) as [[] | e]; [| discriminate].
  inversion Hload; subst. unfold buildConfig. cbn [loaded_firefly timeout retryAttempts
    retryDelay loaded_cacheTtl].
  repeat split; apply numberSetting_nonzero; lia.
Qed.

(** X12.  When [parseInt] reads the built-in literals as their values and
    the environment variable of a numeric setting is unset or empty, the
    setting is the built-in default whatever the configuration file says:
    a variable that parses to a number other than zero is the setting,
    and the value of the file is reached when the variable is set and
    parses to zero or not at all. *)
Theorem file_numbers_are_shadowed_by_the_defaults
    parseInt validUrl jsLength env file manager config manager' :
  parseInt "30000" = Some 30000 ->
  parseInt "3" = Some 3 ->
  parseInt "1000" = Some 1000 ->
  cached manager = None ->
  loadConfig parseInt validUrl jsLength env file manager = (Ok config, manager') ->
  (env "FIREFLY_TIMEOUT" = None \/ env "FIREFLY_TIMEOUT" = Some "" ->
   timeout (loaded_firefly config) = 30000) /\
  (env "FIREFLY_RETRY_ATTEMPTS" = None \/ env "FIREFLY_RETRY_ATTEMPTS" = Some "" ->
   retryAttempts (loaded_firefly config) = 3) /\
  (env "FIREFLY_RETRY_DELAY" = None \/ env "FIREFLY_RETRY_DELAY" = Some "" ->
   retryDelay (loaded_firefly config) = 1000) /\
  (forall text n,
      env "FIREFLY_RETRY_ATTEMPTS" = Some text ->
      text <> "" ->
      parseInt text = Some n ->
      n <> 0 ->
      retryAttempts (loaded_firefly config) = n) /\
  (forall text fileValue,
      env "FIREFLY_RETRY_ATTEMPTS" = Some text ->
      text <> "" ->
      parseInt text = None \/ parseInt text = Some 0 ->
      fileField
        (file_firefly (match file with Ok parsed => parsed | Throw _ => emptyFileConfig end))
        file_retryAttempts = Some fileValue ->
      fileValue <> 0 ->
      retryAttempts (loaded_firefly config) = fileValue).
Proof.
  intros P1 P2 P3 Hfresh Hload. rewrite loadConfig_fresh in Hload by assumption.
  cbv zeta in Hload.
  destruct (validateConfig validUrl jsLength _) as [[] | e]; [| discriminate].
  inversion Hload; subst. unfold buildConfig.
  cbn [loaded_firefly timeout retryAttempts retryDelay]. unfold numberSetting.
  split; [| split; [| split; [| split]]].
  - intros [H | H]; rewrite H; simpl; rewrite P1; reflexivity.
  - intros [H | H]; rewrite H; simpl; rewrite P2; reflexivity.
  - intros [H | H]; rewrite H; simpl; rewrite P3; reflexivity.
  - intros text n Henv Htext Hparse Hnz. rewrite Henv. unfold stringOr.
    destruct (String.eqb text "") eqn:He; [apply String.eqb_eq in He; contradiction |].
    rewrite Hparse. unfold numberOr at 1.
    destruct (n =? 0) eqn:Hz; [apply Z.eqb_eq in Hz; contradiction | reflexivity].
  - intros text fileValue Henv Htext Hparse Hfile Hnz. rewrite Henv, Hfile.
    unfold stringOr.
    destruct (String.eqb text "") eqn:He; [apply String.eqb_eq in He; contradiction |].
    destruct Hparse as [Hp | Hp]; rewrite Hp; simpl;
      (destruct (fileValue =? 0) eqn:Hz; [apply Z.eqb_eq in Hz; contradiction |]);
      reflexivity.
Qed.


(** X14.  Once a configuration has been loaded the manager keeps
    returning it, whatever the environment and the file have become, and
    writes no further warning; a load that fails caches nothing; after
    [clearConfig] the next load builds the configuration anew. *)
Theorem loaded_configuration_is_cached
    parseInt validUrl jsLength env file manager :
  (forall config manager',
      loadConfig parseInt validUrl jsLength env file manager = (Ok config, manager') ->
      getConfig manager' = Some config /\
      forall env' file',
        loadConfig parseInt validUrl jsLength env' file' manager' = (Ok config, manager')) /\
  (forall e manager',
      cached manager = None ->
      loadConfig parseInt validUrl jsLength env file manager = (Throw e, manager') ->
      getConfig manager' = None) /\
  (forall env' file',
      getConfig (clearConfig manager) = None /\
      fst (loadConfig parseInt validUrl jsLength env' file' (clearConfig manager)) =
        match validateConfig validUrl jsLength
                (buildConfig parseInt env'
                   (match file' with Ok parsed => parsed | Throw _ => emptyFileConfig end))
        with
        | Ok _ =>
            Ok (buildConfig parseInt env'
                  (match file' with Ok parsed => parsed | Throw _ => emptyFileConfig end))
        | Throw e => Throw e
        end).
Proof.
  split; [| split].
  - intros config manager' Hload.
    assert (Hc : cached manager' = Some config).
    { unfold loadConfig in Hload. destruct (cached manager) as [c |] eqn:Hm.
      - inversion Hload; subst. exact Hm.
      - destruct (validateConfig validUrl jsLength _) as [[] | e]; inversion Hload.
        reflexivity. }
    split; [exact Hc |].
    intros env' file'. unfold loadConfig. rewrite Hc. reflexivity.
  - intros e manager' Hfresh Hload. rewrite loadConfig_fresh in Hload by assumption.
    cbv zeta in Hload.
    destruct (validateConfig validUrl jsLength _) as [[] | e']; inversion Hload.
    reflexivity.
  - intros env' file'. split; [reflexivity |].
    rewrite loadConfig_fresh by reflexivity. cbv zeta.
    destruct (validateConfig validUrl jsLength _) as [[] | e']; reflexivity.
Qed.

(** * The logger *)

Lemma levelRank_levelName l : levelRank (levelName l) = Some (severity l).
Proof. destruct l; reflexivity. Qed.

(** X15.  A logger without configuration lets every level through.  A
    logger configured with one of the four level names lets a message
    through exactly when its level is at least the configured one, so
    errors always pass.  A logger configured with any other level string
    lets nothing through, errors included. *)
Theorem logger_threshold :
  (forall l, shouldLog None l = true) /\
  (forall threshold l,
      shouldLog (Some (levelName threshold)) l = (severity threshold <=? severity l)) /\
  (forall threshold, shouldLog (Some (levelName threshold)) error = true) /\
  (forall name l, levelRank name = None -> shouldLog (Some name) l = false).
Proof.
  split; [reflexivity |]. split; [| split].
  - intros threshold l. unfold shouldLog. rewrite !levelRank_levelName. reflexivity.
  - intros threshold. destruct threshold; reflexivity.
  - intros name l H. unfold shouldLog. rewrite H.
    destruct (levelRank (levelName l)); reflexivity.
Qed.

(** X16.  The log level of the environment is taken as it is: any
    non-empty [LOG_LEVEL] is loaded without a check, and a logger
    configured with a loaded level that is not one of the four names
    prints nothing at any level. *)
Theorem unchecked_log_level_silences_the_logger
    parseInt validUrl jsLength env file manager config manager' name :
  cached manager = None ->
  loadConfig parseInt validUrl jsLength env file manager = (Ok config, manager') ->
  env "LOG_LEVEL" = Some name ->
  name <> "" ->
  loaded_level config = name /\
  (levelRank name = None ->
   forall l, shouldLog (Some (loaded_level config)) l = false).
Proof.
  intros Hfresh Hload Henv Hname. rewrite loadConfig_fresh in Hload by assumption.
  cbv zeta in Hload.
  destruct (validateConfig validUrl jsLength _) as [[] | e]; [| discriminate].
  assert (Hlevel : loaded_level config = name).
  { inversion Hload; subst config. unfold buildConfig. cbn [loaded_level].
    rewrite Henv. unfold stringOr at 1.
    destruct (String.eqb name "") eqn:He; [apply String.eqb_eq in He; contradiction |].
    reflexivity. }
  split; [exact Hlevel |].
  intros Hrank l. rewrite Hlevel. unfold shouldLog. rewrite Hrank.
  destruct (levelRank (levelName l)); reflexivity.
Qed.

(** * The setup script *)

(** X17.  Copying the configuration template never changes an existing
    configuration file and never changes any other path; when there is no
    configuration file, the template can be read and the write succeeds,
    the new file has the text of the template; a second run changes
    nothing more. *)
Theorem template_copy_never_overwrites fs :
  let fs' := fst (copyConfigTemplate fs) in
  (fileExists fs configPath = true -> fs' = fs) /\
  (forall p, p <> configPath -> fileText fs' p = fileText fs p) /\
  (forall template,
      fileExists fs configPath = false ->
      fileText fs templatePath = Some template ->
      writable fs configPath = true ->
      fileText fs' configPath = Some template /\
      snd (copyConfigTemplate fs) =
        [ConsoleLog "✅ Created config/config.json from template";
         ConsoleLog "📝 Please edit config/config.json with your Firefly III details"]) /\
  (fileExists fs configPath = false ->
   fileText fs templatePath = None \/ writable fs configPath = false ->
   fs' = fs /\ fileExists fs' configPath = false) /\
  fst (copyConfigTemplate fs') = fs'.
Proof.
  intros fs'. subst fs'. unfold copyConfigTemplate.
  destruct (fileExists fs configPath) eqn:Hex.
  - cbn [fst snd]. rewrite Hex. cbn [fst].
    repeat split; intros; try reflexivity; try discriminate.
  - destruct (fileText fs templatePath) as [template |] eqn:Ht.
    + destruct (writable fs configPath) eqn:Hw; cbn [fst snd].
      * assert (Hnew : fileExists (writeTextFile fs configPath template) configPath = true).
        { unfold fileExists, writeTextFile. cbn [fileText].
          rewrite String.eqb_refl. reflexivity. }
        rewrite Hnew. cbn [fst].
        split; [discriminate |]. split.
        { intros p Hp. unfold writeTextFile. cbn [fileText].
          apply String.eqb_neq in Hp. rewrite Hp. reflexivity. }
        split.
        { intros t _ Heq _. inversion Heq; subst. split; [| reflexivity].
          unfold writeTextFile. cbn [fileText]. rewrite String.eqb_refl. reflexivity. }
        split; [| reflexivity].
        intros _ [H | H]; discriminate.
      * rewrite Hex, Ht, Hw. cbn [fst].
        repeat split; intros; try reflexivity; try discriminate; assumption.
    + cbn [fst snd]. rewrite Hex, Ht. cbn [fst].
      repeat split; intros; try reflexivity; try discriminate; assumption.
Qed.

(** * Concrete runs of the further properties *)




(** X5 (witness): a creation is sent with its body by [POST]. *)
Lemma attempts_resend_the_same_request_witness :
  body (requestConfig postOptions 35000) =
    Some (Js.Object [("name", Js.Str "Groceries")]) /\
  opt_body postOptions = Some (Js.Object [("name", Js.Str "Groceries")]) /\
  (POST = POST \/ POST = PUT \/ POST = PATCH).
Proof.
  assert (Hbody : body (requestConfig postOptions 35000) =
                  Some (Js.Object [("name", Js.Str "Groceries")]))
    by reflexivity.
  split; [exact Hbody |].
  exact (proj2 (attempts_resend_the_same_request (exampleConfig 30000 1 1000)
                  (transientNetwork 20) exampleUrl "/api/v1/categories" postOptions
                  (newClient 5000))
           35000 (Js.Object [("name", Js.Str "Groceries")]) Hbody).
Defined.

(** X6 (witness): the 403 of the service is thrown with its own
    message. *)
Lemma server_message_is_used_when_present_witness :
  fst (attemptOnce (exampleConfig 30000 1 1000) (constantNetwork forbidden) aboutUrl
         (requestConfig defaultOptions 35000)
         (newClient 5000)) =
    Throw (FireflyApiError "Forbidden" 403
             (Some (Js.Object [("message", Js.Str "Forbidden")]))).
Proof.
  destruct (server_message_is_used_when_present (exampleConfig 30000 1 1000)
              (constantNetwork forbidden) aboutUrl
              (requestConfig defaultOptions 35000)
              (newClient 5000) forbidden)
    as (Hmessage & _).
  - reflexivity.
  - reflexivity.
  - apply (Hmessage [("message", Js.Str "Forbidden")] "Forbidden").
    + reflexivity.
    + reflexivity.
    + discriminate.
Defined.


(** X8 (witness): a directory with the Portuguese and the French file,
    and a missing directory. *)
Lemma scan_lists_the_known_files_that_exist_witness :
  (exists files,
      scanCategoryFiles twoFilesExist (newClient 0) = (Ok files, newClient 0) /\
      map CategoryFile.path files =
        ["./data/categories/categories-pt-br.json";
         "./data/categories/categories-fr.json"]) /\
  fst (scanCategoryFiles nothingExists (newClient 0)) =
    Throw (PlainError "Error" "Categories directory not found: ./data/categories").
Proof.
  split.
  - destruct (proj2 (scan_lists_the_known_files_that_exist twoFilesExist (newClient 0)))
      as (files & Hrun & Hpaths & _).
    + reflexivity.
    + exists files. split; [exact Hrun | exact Hpaths].
  - rewrite (proj1 (scan_lists_the_known_files_that_exist nothingExists (newClient 0)));
      reflexivity.
Defined.

(** X9 (witness): with the Portuguese and the French file the selection
    is the Portuguese one; with no known file it throws. *)
Lemma selection_is_the_first_file_witness :
  fst (bind (scanCategoryFiles twoFilesExist) selectCategoryFile (newClient 0)) =
    Ok {| CategoryFile.path := "./data/categories/categories-pt-br.json";
          CategoryFile.name := "categories-pt-br" |} /\
  fst (bind (scanCategoryFiles emptyDirExists) selectCategoryFile (newClient 0)) =
    Throw (PlainError "Error" "No category files found in ./data/categories").
Proof.
  split.
  - destruct (selection_is_the_first_file twoFilesExist [] (newClient 0))
      as (_ & _ & Hfirst & _).
    apply Hfirst; reflexivity.
  - destruct (selection_is_the_first_file emptyDirExists [] (newClient 0))
      as (_ & _ & _ & Hnone).
    apply Hnone; reflexivity.
Defined.

(** X10 (witness): a file with one named category, and a file that
    cannot be read. *)
Lemma category_file_is_validated_witness :
  loadCategoriesFromFile readsOneCategory parsesOneCategory
    "./data/categories/categories-en.json" =
    Ok [Js.Object [("name", Js.Str "Food")]] /\
  exists cause,
    readCategories readFails parsesOneCategory "./data/categories/categories-en.json" =
      Throw cause /\
    PlainError "Error"
      "Failed to load categories from ./data/categories/categories-en.json: No such file or directory" =
    PlainError "Error"
      ("Failed to load categories from " ++ "./data/categories/categories-en.json" ++ ": "
       ++ errorMessage cause).
Proof.
  split.
  - apply (proj1 (category_file_is_validated readsOneCategory parsesOneCategory
                    "./data/categories/categories-en.json")).
    exists "categories". repeat split; reflexivity.
  - destruct (proj2 (category_file_is_validated readFails parsesOneCategory
                       "./data/categories/categories-en.json")
                (PlainError "Error"
                   "Failed to load categories from ./data/categories/categories-en.json: No such file or directory"))
      as (cause & Hcause & He).
    + reflexivity.
    + exists cause. split; [exact Hcause | exact He].
Defined.

(** X11 (witness): the environment of the unit tests, without a file. *)
Lemma loaded_numbers_are_never_zero_witness :
  timeout (loaded_firefly (buildConfig decimalParseInt testEnv emptyFileConfig)) <> 0 /\
  retryAttempts (loaded_firefly (buildConfig decimalParseInt testEnv emptyFileConfig)) <> 0.
Proof.
  destruct (loaded_numbers_are_never_zero decimalParseInt schemeUrl String.length
              testEnv missingFile newManager
              (buildConfig decimalParseInt testEnv emptyFileConfig)
              {| cached := Some (buildConfig decimalParseInt testEnv emptyFileConfig);
                 warnings :=
                   ["Could not load config/config.json, using environment variables only: No such file or directory"] |})
    as (H1 & H2 & _).
  - reflexivity.
  - reflexivity.
  - split; [exact H1 | exact H2].
Defined.

(** X12 (witness): the file asks for a timeout of 5000 ms and one retry;
    without the environment variables the loaded values are 30000 and 3. *)
Lemma file_numbers_are_shadowed_by_the_defaults_witness :
  fileField (file_firefly tunedFile) file_timeout = Some 5000 /\
  timeout (loaded_firefly (buildConfig decimalParseInt testEnv tunedFile)) = 30000 /\
  retryAttempts (loaded_firefly (buildConfig decimalParseInt testEnv tunedFile)) = 3.
Proof.
  destruct (file_numbers_are_shadowed_by_the_defaults decimalParseInt schemeUrl
              String.length testEnv (Ok tunedFile) newManager
              (buildConfig decimalParseInt testEnv tunedFile)
              {| cached := Some (buildConfig decimalParseInt testEnv tunedFile);
                 warnings := [] |})
    as (H1 & H2 & _).
  - reflexivity.
  - reflexivity.
  - reflexivity.
  - reflexivity.
  - reflexivity.
  - split; [reflexivity |]. split; [apply H1 | apply H2]; left; reflexivity.
Defined.


(** X14 (witness): after a load in the environment of the unit tests, a
    load in an environment without any variable returns the same
    configuration. *)
Lemma loaded_configuration_is_cached_witness :
  fst (loadConfig decimalParseInt schemeUrl String.length (fun _ => None) missingFile
         (snd (loadConfig decimalParseInt schemeUrl String.length testEnv missingFile
                 newManager))) =
    Ok (buildConfig decimalParseInt testEnv emptyFileConfig).
Proof.
  destruct (loaded_configuration_is_cached decimalParseInt schemeUrl String.length
              testEnv missingFile newManager)
    as (Hkeep & _).
  destruct (Hkeep (buildConfig decimalParseInt testEnv emptyFileConfig)
              (snd (loadConfig decimalParseInt schemeUrl String.length testEnv missingFile
                      newManager)))
    as (_ & Hagain).
  - reflexivity.
  - rewrite (Hagain (fun _ => None) missingFile). reflexivity.
Defined.

(** X15 (witness): the level "verbose" is in no row of the table. *)
Lemma logger_threshold_witness :
  levelRank "verbose" = None /\ shouldLog (Some "verbose") error = false.
Proof.
  assert (H : levelRank "verbose" = None) by reflexivity.
  split; [exact H |].
  exact (proj2 (proj2 (proj2 logger_threshold)) "verbose" error H).
Defined.

(** X16 (witness): [LOG_LEVEL=verbose] is loaded and silences errors. *)
Lemma unchecked_log_level_silences_the_logger_witness :
  loaded_level (buildConfig decimalParseInt verboseEnv emptyFileConfig) = "verbose" /\
  shouldLog (Some (loaded_level (buildConfig decimalParseInt verboseEnv emptyFileConfig)))
    error = false.
Proof.
  destruct (unchecked_log_level_silences_the_logger decimalParseInt schemeUrl
              String.length verboseEnv missingFile newManager
              (buildConfig decimalParseInt verboseEnv emptyFileConfig)
              {| cached := Some (buildConfig decimalParseInt verboseEnv emptyFileConfig);
                 warnings :=
                   ["Could not load config/config.json, using environment variables only: No such file or directory"] |}
              "verbose")
    as (Hlevel & Hsilent).
  - reflexivity.
  - reflexivity.
  - reflexivity.
  - discriminate.
  - split; [exact Hlevel |]. apply Hsilent. reflexivity.
Defined.

(** X17 (witness): with the template only, the configuration file is
    created with the text of the template. *)
Lemma template_copy_never_overwrites_witness :
  fileText (fst (copyConfigTemplate templateOnly)) configPath = Some "{}".
Proof.
  destruct (template_copy_never_overwrites templateOnly) as (_ & _ & Hcopy & _).
  destruct (Hcopy "{}") as (Htext & _).
  - reflexivity.
  - reflexivity.
  - reflexivity.
  - exact Htext.
Defined.
